(** * Registration-form validator (src/app.ts)

    A shallow embedding of the [FormValidator] class: its rule catalog, the
    per-field rule loop [validateField], the aggregate [validateAll], and the
    registered-email registry kept in [localStorage].

    Strings.  A JavaScript string is a sequence of code units.  The embedding
    works over the Latin-1 repertoire: a string is a [list ascii], each
    [ascii] being the code unit of the same number (0 to 255).  On that
    repertoire [trim], the regular-expression classes and [toLowerCase] below
    are the ECMAScript ones. *)

From Stdlib Require Import List String Ascii Bool Arith Lia.
Import ListNotations.

(* ================================================================== *)
(** ** Strings *)

Module JS.

Definition jsstring := list ascii.

(** A string literal of the source. *)
Definition js (s : string) : jsstring := list_ascii_of_string s.

Definition code (c : ascii) : nat := nat_of_ascii c.

(** [lo-hi] inside a character class. *)
Definition range (lo hi : ascii) (c : ascii) : bool :=
  (code lo <=? code c) && (code c <=? code hi).

(** Membership of a code unit in an explicit list of code units. *)
Definition oneOf (cs : jsstring) (c : ascii) : bool :=
  existsb (Ascii.eqb c) cs.

(** ECMAScript WhiteSpace and LineTerminator code units below 256: TAB, LF,
    VT, FF, CR, SP and NBSP.  This is what [String.prototype.trim] strips
    and what the class escape [\s] matches. *)
Definition isWhiteSpace (c : ascii) : bool :=
  existsb (Nat.eqb (code c)) [9; 10; 11; 12; 13; 32; 160].

Fixpoint trimStart (s : jsstring) : jsstring :=
  match s with
  | [] => []
  | c :: s' => if isWhiteSpace c then trimStart s' else s
  end.

Definition trimEnd (s : jsstring) : jsstring := rev (trimStart (rev s)).

(** [String.prototype.trim] *)
Definition trim (s : jsstring) : jsstring := trimEnd (trimStart s).

(** Lower-case mapping of one Latin-1 code unit: A-Z, and the capital
    letters U+00C0..U+00DE except the multiplication sign U+00D7. *)
Definition toLowerChar (c : ascii) : ascii :=
  let n := code c in
  if ((65 <=? n) && (n <=? 90))
     || ((192 <=? n) && (n <=? 222) && negb (n =? 215))
  then ascii_of_nat (n + 32)
  else c.

(** [String.prototype.toLowerCase] *)
Definition toLowerCase (s : jsstring) : jsstring := map toLowerChar s.

(** Strict equality [===] of two strings. *)
Fixpoint strictEq (a b : jsstring) : bool :=
  match a, b with
  | [], [] => true
  | x :: a', y :: b' => Ascii.eqb x y && strictEq a' b'
  | _, _ => false
  end.

(** [Array.prototype.includes] on an array of strings. *)
Definition includes (arr : list jsstring) (x : jsstring) : bool :=
  existsb (fun y => strictEq y x) arr.

End JS.
Import JS.

(* ================================================================== *)
(** ** Regular expressions *)

Module RegExp.

(** The fragment of the pattern language the rule catalog uses: character
    classes, concatenation and [+]; [Void], [Eps], [Alt] and [Star] are what
    derivatives of those need. *)
Inductive regex : Type :=
| Void : regex
| Eps : regex
| Class : (ascii -> bool) -> regex
| Cat : regex -> regex -> regex
| Alt : regex -> regex -> regex
| Star : regex -> regex.

(** [r+] *)
Definition Plus (r : regex) : regex := Cat r (Star r).

(** The words of a regular expression. *)
Inductive lang : regex -> jsstring -> Prop :=
| L_eps : lang Eps []
| L_class : forall (p : ascii -> bool) c, p c = true -> lang (Class p) [c]
| L_cat : forall r1 r2 s1 s2,
    lang r1 s1 -> lang r2 s2 -> lang (Cat r1 r2) (s1 ++ s2)
| L_alt_l : forall r1 r2 s, lang r1 s -> lang (Alt r1 r2) s
| L_alt_r : forall r1 r2 s, lang r2 s -> lang (Alt r1 r2) s
| L_star_nil : forall r, lang (Star r) []
| L_star_cons : forall r s1 s2,
    lang r s1 -> lang (Star r) s2 -> lang (Star r) (s1 ++ s2).

Fixpoint nullable (r : regex) : bool :=
  match r with
  | Void => false
  | Eps => true
  | Class _ => false
  | Cat r1 r2 => nullable r1 && nullable r2
  | Alt r1 r2 => nullable r1 || nullable r2
  | Star _ => true
  end.

Fixpoint deriv (c : ascii) (r : regex) : regex :=
  match r with
  | Void => Void
  | Eps => Void
  | Class p => if p c then Eps else Void
  | Cat r1 r2 =>
      if nullable r1
      then Alt (Cat (deriv c r1) r2) (deriv c r2)
      else Cat (deriv c r1) r2
  | Alt r1 r2 => Alt (deriv c r1) (deriv c r2)
  | Star r1 => Cat (deriv c r1) (Star r1)
  end.

(** Whole-string match. *)
Fixpoint matches (r : regex) (s : jsstring) : bool :=
  match s with
  | [] => nullable r
  | c :: s' => matches (deriv c r) s'
  end.

(** A pattern literal [/.../]: its body and whether it opens with [^] and
    closes with [$]. *)
Record pattern : Type := Pattern {
  anchoredStart : bool;
  body : regex;
  anchoredEnd : bool
}.

Definition anyChar : regex := Class (fun _ => true).

(** [RegExp.prototype.test] for a literal without flags: some substring
    matches the body, the substring starting at the start of the input when
    the pattern opens with [^] and ending at its end when it closes with
    [$]. *)
Definition test (p : pattern) (s : jsstring) : bool :=
  matches
    (Cat (if anchoredStart p then Eps else Star anyChar)
         (Cat (body p) (if anchoredEnd p then Eps else Star anyChar)))
    s.

End RegExp.
Import RegExp.

(* ================================================================== *)
(** ** The page: form controls, error spans and localStorage *)

Module Page.

(** [type FieldName = 'name' | 'email' | 'password' | 'confirmPassword'] *)
Inductive FieldName : Type := Name | Email | Password | ConfirmPassword.

Definition FieldName_eqb (f g : FieldName) : bool :=
  match f, g with
  | Name, Name | Email, Email | Password, Password
  | ConfirmPassword, ConfirmPassword => true
  | _, _ => false
  end.

(** [interface FormFields] *)
Record FormFields : Type := {
  name : jsstring;
  email : jsstring;
  password : jsstring;
  confirmPassword : jsstring
}.

(** [formData[field]] *)
Definition getField (formData : FormFields) (field : FieldName) : jsstring :=
  match field with
  | Name => name formData
  | Email => email formData
  | Password => password formData
  | ConfirmPassword => confirmPassword formData
  end.

(** The part of an input control the validator reads and writes. *)
Record HTMLInputElement : Type := {
  value : jsstring;
  classList : list jsstring
}.

(** The part of an error span the validator writes. *)
Record HTMLSpanElement : Type := {
  textContent : jsstring
}.

(** [DOMTokenList.add]: the token is appended unless already present. *)
Definition classList_add (token : jsstring) (l : list jsstring) : list jsstring :=
  if includes l token then l else l ++ [token].

(** [DOMTokenList.remove] *)
Definition classList_remove (token : jsstring) (l : list jsstring) : list jsstring :=
  filter (fun t => negb (strictEq t token)) l.

(** The value stored under the key ['registeredEmails'], decoded:
    [JSON.stringify] and [JSON.parse] are inverse to each other on arrays of
    strings, and [None] is the absent key ([getItem] returning [null]). *)
Definition LocalStorage := option (list jsstring).

(** The state the validator runs in: the four input controls (found by
    [getInput]), the four error spans (found by [getError]) and
    [localStorage]. *)
Record World : Type := {
  getInput : FieldName -> HTMLInputElement;
  getError : FieldName -> HTMLSpanElement;
  localStorage : LocalStorage
}.

Definition setInput (field : FieldName) (i : HTMLInputElement) (w : World) : World :=
  {| getInput := fun g => if FieldName_eqb g field then i else getInput w g;
     getError := getError w;
     localStorage := localStorage w |}.

Definition setError (field : FieldName) (e : HTMLSpanElement) (w : World) : World :=
  {| getInput := getInput w;
     getError := fun g => if FieldName_eqb g field then e else getError w g;
     localStorage := localStorage w |}.

Definition setLocalStorage (ls : LocalStorage) (w : World) : World :=
  {| getInput := getInput w;
     getError := getError w;
     localStorage := ls |}.

(** [input.classList.<op>(token)] on the control of [field]. *)
Definition onClassList (field : FieldName)
    (op : list jsstring -> list jsstring) (w : World) : World :=
  let input := getInput w field in
  setInput field {| value := value input; classList := op (classList input) |} w.

(** [error.textContent = text] on the span of [field]. *)
Definition setTextContent (field : FieldName) (text : jsstring) (w : World) : World :=
  setError field {| textContent := text |} w.

End Page.
Import Page.

(* ================================================================== *)
(** ** class FormValidator *)

Module FormValidator.

(** [interface ValidationRule].  A predicate is a closure: besides its two
    arguments it can read [localStorage] (the email rules do, through
    [isEmailRegistered]); the second argument is optional. *)
Record ValidationRule : Type := {
  validate : LocalStorage -> jsstring -> option FormFields -> bool;
  message : jsstring
}.

(** The two instance fields the validation reads. *)
Record FormValidator : Type := {
  fields : list FieldName;
  rules : FieldName -> list ValidationRule
}.

(** [getRegisteredEmails] *)
Definition getRegisteredEmails (ls : LocalStorage) : list jsstring :=
  match ls with
  | Some stored => stored
  | None => []
  end.

(** [isEmailRegistered] *)
Definition isEmailRegistered (ls : LocalStorage) (email : jsstring) : bool :=
  let registeredEmails := getRegisteredEmails ls in
  includes registeredEmails (toLowerCase email).

(** [saveEmail] *)
Definition saveEmail (email : jsstring) (ls : LocalStorage) : LocalStorage :=
  let registeredEmails := getRegisteredEmails ls in
  if negb (includes registeredEmails (toLowerCase email))
  then Some (registeredEmails ++ [toLowerCase email])
  else ls.

(** [/^[a-zA-Z\s]+$/] *)
Definition re_name : pattern :=
  Pattern true
    (Plus (Class (fun c =>
       range "a" "z" c || range "A" "Z" c || isWhiteSpace c)))
    true.

(** [[^\s@]] *)
Definition notSpaceNorAt (c : ascii) : bool :=
  negb (isWhiteSpace c || Ascii.eqb c "@").

(** [/^[^\s@]+@[^\s@]+\.[^\s@]+$/] *)
Definition re_email : pattern :=
  Pattern true
    (Cat (Plus (Class notSpaceNorAt))
      (Cat (Class (fun c => Ascii.eqb c "@"))
        (Cat (Plus (Class notSpaceNorAt))
          (Cat (Class (fun c => Ascii.eqb c "."))
               (Plus (Class notSpaceNorAt))))))
    true.

(** [/[A-Z]/] *)
Definition re_upper : pattern := Pattern false (Class (range "A" "Z")) false.

(** [/[a-z]/] *)
Definition re_lower : pattern := Pattern false (Class (range "a" "z")) false.

(** [/[0-9]/] *)
Definition re_digit : pattern := Pattern false (Class (range "0" "9")) false.

(** The code units listed in the class of the special-character rule, in
    the order of the source; the double quote is code unit 34. *)
Definition specialChars : jsstring :=
  js "!@#$%^&*(),.?" ++ ["034"%char] ++ js ":{}|<>".

(** The pattern of the special-character rule: one code unit of
    [specialChars], anywhere in the input. *)
Definition re_special : pattern := Pattern false (Class (oneOf specialChars)) false.

(** The rule catalog the constructor builds, in the order of the source. *)
Definition rules_name : list ValidationRule :=
  [ {| validate := fun _ v _ => 0 <? List.length (trim v);
       message := js "Name is required" |};
    {| validate := fun _ v _ => 2 <=? List.length (trim v);
       message := js "Name must be at least 2 characters long" |};
    {| validate := fun _ v _ => test re_name (trim v);
       message := js "Name can only contain letters and spaces" |} ].

Definition rules_email : list ValidationRule :=
  [ {| validate := fun _ v _ => 0 <? List.length (trim v);
       message := js "Email is required" |};
    {| validate := fun _ v _ => test re_email (trim v);
       message := js "Please enter a valid email address" |};
    {| validate := fun ls v _ => negb (isEmailRegistered ls (trim v));
       message := js "This email is already registered" |} ].

Definition rules_password : list ValidationRule :=
  [ {| validate := fun _ v _ => 0 <? List.length v;
       message := js "Password is required" |};
    {| validate := fun _ v _ => 8 <=? List.length v;
       message := js "Password must be at least 8 characters long" |};
    {| validate := fun _ v _ => test re_upper v;
       message := js "Password must contain at least one uppercase letter" |};
    {| validate := fun _ v _ => test re_lower v;
       message := js "Password must contain at least one lowercase letter" |};
    {| validate := fun _ v _ => test re_digit v;
       message := js "Password must contain at least one number" |};
    {| validate := fun _ v _ => test re_special v;
       message := js "Password must contain at least one special character" |} ].

Definition rules_confirmPassword : list ValidationRule :=
  [ {| validate := fun _ v _ => 0 <? List.length v;
       message := js "Please confirm your password" |};
    {| validate := fun _ v data =>
         match data with
         | Some d => strictEq v (password d)
         | None => false
         end;
       message := js "Passwords do not match" |} ].

(** The object the constructor returns. *)
Definition new : FormValidator :=
  {| fields := [Name; Email; Password; ConfirmPassword];
     rules := fun field =>
       match field with
       | Name => rules_name
       | Email => rules_email
       | Password => rules_password
       | ConfirmPassword => rules_confirmPassword
       end |}.

(** [getFormData] *)
Definition getFormData (w : World) : FormFields :=
  {| name := value (getInput w Name);
     email := value (getInput w Email);
     password := value (getInput w Password);
     confirmPassword := value (getInput w ConfirmPassword) |}.

(** The [for (const rule of this.rules[field])] loop of [validateField]: the
    rule at which the loop is left by [return false], if any. *)
Fixpoint firstFailing (rs : list ValidationRule) (ls : LocalStorage)
    (value : jsstring) (formData : FormFields) : option ValidationRule :=
  match rs with
  | [] => None
  | rule :: rs' =>
      if negb (validate rule ls value (Some formData))
      then Some rule
      else firstFailing rs' ls value formData
  end.

(** [validateField]: the returned boolean and the page afterwards. *)
Definition validateField (this : FormValidator) (field : FieldName)
    (w : World) : bool * World :=
  let formData := getFormData w in
  let value := getField formData field in
  match firstFailing (rules this field) (localStorage w) value formData with
  | Some rule =>
      let w1 := onClassList field (classList_add (js "error")) w in
      let w2 := onClassList field (classList_remove (js "success")) w1 in
      let w3 := setTextContent field (message rule) w2 in
      (false, w3)
  | None =>
      let w1 := onClassList field (classList_remove (js "error")) w in
      let w2 := onClassList field (classList_add (js "success")) w1 in
      let w3 := setTextContent field [] w2 in
      (true, w3)
  end.

(** [clearError] *)
Definition clearError (field : FieldName) (w : World) : World :=
  let w1 := onClassList field (classList_remove (js "error")) w in
  setTextContent field [] w1.

(** [Array.prototype.every] with a callback that acts on the page: the
    callback is called on the elements in order, and the first call that
    returns [false] ends the iteration. *)
Fixpoint every {A : Type} (callback : A -> World -> bool * World)
    (arr : list A) (w : World) : bool * World :=
  match arr with
  | [] => (true, w)
  | x :: arr' =>
      let (b, w') := callback x w in
      if b then every callback arr' w' else (false, w')
  end.

(** [validateAll] *)
Definition validateAll (this : FormValidator) (w : World) : bool * World :=
  every (fun field => validateField this field) (fields this) w.

(** The outcome of one field as the page shows it after a call of
    [validateField]: [Valid] when the call returned [true], otherwise
    [Invalid] with the text written into the field's error span. *)
Inductive FieldOutcome : Type :=
| Valid : FieldOutcome
| Invalid : jsstring -> FieldOutcome.

Definition outcome (field : FieldName) (r : bool * World) : FieldOutcome :=
  if fst r then Valid else Invalid (textContent (getError (snd r) field)).

(** The specification's [evaluateField]: the outcome of [validateField]. *)
Definition evaluateField (this : FormValidator) (field : FieldName)
    (w : World) : FieldOutcome :=
  outcome field (validateField this field w).

End FormValidator.
Import FormValidator.

(* ================================================================== *)
(** ** Notions used in the statements *)

Module Props.

(** A string that [toLowerCase] leaves as it is. *)
Definition isLowerCase (s : jsstring) : Prop := toLowerCase s = s.

(** The registry as a set of lower-case strings: no entry twice, every entry
    lower-case. *)
Definition registryOk (registeredEmails : list jsstring) : Prop :=
  NoDup registeredEmails /\ Forall isLowerCase registeredEmails.

(** The elements of [arr] that come before the first occurrence of
    [field]. *)
Fixpoint fieldsBefore (field : FieldName) (arr : list FieldName) : list FieldName :=
  match arr with
  | [] => []
  | g :: arr' =>
      if FieldName_eqb g field then [] else g :: fieldsBefore field arr'
  end.

(** Every field that [this.fields] lists before [field] passes
    [validateField] on the page [w]. *)
Definition allValidBefore (this : FormValidator) (field : FieldName)
    (w : World) : bool :=
  forallb (fun g => fst (validateField this g w))
          (fieldsBefore field (fields this)).

(** A rule's predicate on the arguments [validateField] gives it. *)
Definition passes (w : World) (field : FieldName) (rule : ValidationRule) : bool :=
  validate rule (localStorage w) (getField (getFormData w) field)
           (Some (getFormData w)).

(** The character class of the name rule, [[a-zA-Z\s]]. *)
Definition letterOrWhiteSpace (c : ascii) : bool :=
  range "a" "z" c || range "A" "Z" c || isWhiteSpace c.

(** The class the specification writes for the name rule, [[A-Za-z ]]: a
    letter or the space U+0020. *)
Definition letterOrSpace (c : ascii) : bool :=
  range "A" "Z" c || range "a" "z" c || Ascii.eqb c " ".

(** A page whose four controls hold the given values, with no class set, the
    error spans empty and the given [localStorage]. *)
Definition page (n e p c : jsstring) (ls : LocalStorage) : World :=
  {| getInput := fun field =>
       {| value := getField
            {| name := n; email := e; password := p; confirmPassword := c |}
            field;
          classList := [] |};
     getError := fun _ => {| textContent := [] |};
     localStorage := ls |}.

(** What the page shows for one field: its control and its error span. *)
Definition controls (w : World) (field : FieldName)
    : HTMLInputElement * HTMLSpanElement :=
  (getInput w field, getError w field).

End Props.
Import Props.

(* ================================================================== *)
(** ** The submit path: banner, console, timers, events *)

Module App.

(** The part of the banner [#successMessage] the validator writes. *)
Record HTMLDivElement : Type := {
  div_textContent : jsstring;
  div_classList : list jsstring
}.

(** The submit event: whether [preventDefault] was called on it. *)
Record Event : Type := {
  defaultPrevented : bool
}.

(** The object [handleSubmit] passes to [console.log]. *)
Record Submitted : Type := {
  log_name : jsstring;
  log_email : jsstring;
  log_passwordLength : nat
}.

(** Everything the class acts on: the page of [validateField], the default
    value of each control (what [form.reset()] puts back; the four controls
    belong to the form), the banner, the delays in milliseconds of the
    pending [setTimeout(() => this.reset(), ...)] calls, oldest first, and the
    console. *)
Record Browser : Type := {
  world : World;
  defaultValue : FieldName -> jsstring;
  successMsg : HTMLDivElement;
  timeouts : list nat;
  console : list Submitted
}.

Definition setWorld (w : World) (b : Browser) : Browser :=
  {| world := w;
     defaultValue := defaultValue b;
     successMsg := successMsg b;
     timeouts := timeouts b;
     console := console b |}.

Definition setSuccessMsg (d : HTMLDivElement) (b : Browser) : Browser :=
  {| world := world b;
     defaultValue := defaultValue b;
     successMsg := d;
     timeouts := timeouts b;
     console := console b |}.

Definition setTimeouts (ts : list nat) (b : Browser) : Browser :=
  {| world := world b;
     defaultValue := defaultValue b;
     successMsg := successMsg b;
     timeouts := ts;
     console := console b |}.

Definition setConsole (c : list Submitted) (b : Browser) : Browser :=
  {| world := world b;
     defaultValue := defaultValue b;
     successMsg := successMsg b;
     timeouts := timeouts b;
     console := c |}.

(** [this.successMsg.classList.<op>(token)] *)
Definition onSuccessClassList (op : list jsstring -> list jsstring)
    (b : Browser) : Browser :=
  setSuccessMsg {| div_textContent := div_textContent (successMsg b);
                   div_classList := op (div_classList (successMsg b)) |} b.

(** [this.successMsg.textContent = text] *)
Definition setSuccessText (text : jsstring) (b : Browser) : Browser :=
  setSuccessMsg {| div_textContent := text;
                   div_classList := div_classList (successMsg b) |} b.

(** The user changes the text of a control. *)
Definition setValue (field : FieldName) (v : jsstring) (w : World) : World :=
  setInput field {| value := v; classList := classList (getInput w field) |} w.

(** [this.form.reset()]: every control gets its default value back. *)
Definition form_reset (defaults : FieldName -> jsstring) (w : World) : World :=
  {| getInput := fun g =>
       {| value := defaults g; classList := classList (getInput w g) |};
     getError := getError w;
     localStorage := localStorage w |}.

(** [reset] *)
Definition reset (this : FormValidator) (b : Browser) : Browser :=
  let w0 := form_reset (defaultValue b) (world b) in
  let w1 :=
    fold_left
      (fun w field =>
         let w' := onClassList field
                     (fun l => classList_remove (js "error")
                                 (classList_remove (js "success") l)) w in
         setTextContent field [] w')
      (fields this) w0 in
  onSuccessClassList (classList_remove (js "show")) (setWorld w1 b).

(** The template literal of the banner. *)
Definition welcome (name : jsstring) : jsstring :=
  js "Registration successful! Welcome, " ++ name ++ js "!".

(** [handleSubmit] *)
Definition handleSubmit (this : FormValidator) (e : Event) (b : Browser)
    : Event * Browser :=
  let e1 := {| defaultPrevented := true |} in
  let b1 := onSuccessClassList (classList_remove (js "show")) b in
  let (ok, w1) := validateAll this (world b1) in
  let b2 := setWorld w1 b1 in
  if ok then
    let data := getFormData (world b2) in
    let b3 := setWorld (setLocalStorage
                          (saveEmail (email data) (localStorage (world b2)))
                          (world b2)) b2 in
    let b4 := setSuccessText (welcome (name data)) b3 in
    let b5 := onSuccessClassList (classList_add (js "show")) b4 in
    let b6 := setConsole
                (console b5 ++
                 [ {| log_name := name data;
                      log_email := email data;
                      log_passwordLength := List.length (password data) |} ])
                b5 in
    let b7 := setTimeouts (timeouts b6 ++ [3000]) b6 in
    (e1, b7)
  else (e1, b2).

(** The oldest pending timeout fires: its callback is [this.reset()]. *)
Definition runTimeout (this : FormValidator) (b : Browser) : Browser :=
  match timeouts b with
  | [] => b
  | _ :: rest => reset this (setTimeouts rest b)
  end.

(** The listeners [init] installs on a control: [blur] runs
    [validateField], [input] runs [clearError]. *)
Definition onBlur (this : FormValidator) (field : FieldName) (w : World) : World :=
  snd (validateField this field w).

Definition onInput (field : FieldName) (w : World) : World :=
  clearError field w.

(** The user types [v] into a control: the value changes and the [input]
    listener runs. *)
Definition typeInto (field : FieldName) (v : jsstring) (w : World) : World :=
  onInput field (setValue field v w).

(** The rule catalog of the variant without the registry
    (src/unnamed/part_001): the email list has the first two rules only, the
    other three lists are the same. *)
Definition rules_email_plain : list ValidationRule :=
  [ {| validate := fun _ v _ => 0 <? List.length (trim v);
       message := js "Email is required" |};
    {| validate := fun _ v _ => test re_email (trim v);
       message := js "Please enter a valid email address" |} ].

Definition new_plain : FormValidator :=
  {| fields := [Name; Email; Password; ConfirmPassword];
     rules := fun field =>
       match field with
       | Name => rules_name
       | Email => rules_email_plain
       | Password => rules_password
       | ConfirmPassword => rules_confirmPassword
       end |}.

(** [handleSubmit] of that variant: no [saveEmail]. *)
Definition handleSubmit_plain (this : FormValidator) (e : Event) (b : Browser)
    : Event * Browser :=
  let e1 := {| defaultPrevented := true |} in
  let b1 := onSuccessClassList (classList_remove (js "show")) b in
  let (ok, w1) := validateAll this (world b1) in
  let b2 := setWorld w1 b1 in
  if ok then
    let data := getFormData (world b2) in
    let b4 := setSuccessText (welcome (name data)) b2 in
    let b5 := onSuccessClassList (classList_add (js "show")) b4 in
    let b6 := setConsole
                (console b5 ++
                 [ {| log_name := name data;
                      log_email := email data;
                      log_passwordLength := List.length (password data) |} ])
                b5 in
    let b7 := setTimeouts (timeouts b6 ++ [3000]) b6 in
    (e1, b7)
  else (e1, b2).

(** A browser showing the page [w]: empty defaults, an empty hidden banner,
    no pending timeout, an empty console. *)
Definition browser (w : World) : Browser :=
  {| world := w;
     defaultValue := fun _ => [];
     successMsg := {| div_textContent := []; div_classList := [] |};
     timeouts := [];
     console := [] |}.

(** What can happen to the form once [init] has installed the listeners:
    a control loses focus, the user types into a control, the form is
    submitted, the oldest pending timeout fires. *)
Inductive UserEvent : Type :=
| Blur : FieldName -> UserEvent
| Input : FieldName -> jsstring -> UserEvent
| SubmitForm : UserEvent
| TimerFires : UserEvent.

(** The listener [init] installed for the event, run on the browser. *)
Definition dispatch (this : FormValidator) (b : Browser) (ev : UserEvent)
    : Browser :=
  match ev with
  | Blur field => setWorld (onBlur this field (world b)) b
  | Input field v => setWorld (typeInto field v (world b)) b
  | SubmitForm => snd (handleSubmit this {| defaultPrevented := false |} b)
  | TimerFires => runTimeout this b
  end.

(** A sequence of events, one after the other. *)
Definition run (this : FormValidator) (evs : list UserEvent) (b : Browser)
    : Browser :=
  fold_left (dispatch this) evs b.

(** No control carries the classes [error] and [success] together. *)
Definition exclusiveMarks (w : World) : Prop :=
  forall g,
    ~ (In (js "error") (classList (getInput w g))
       /\ In (js "success") (classList (getInput w g))).

End App.
Import App.

(* ================================================================== *)
(** ** Strings: basic facts *)

Lemma strictEq_eq (a b : jsstring) : strictEq a b = true <-> a = b.
Proof.
  revert b; induction a as [|x a IH]; intros [|y b]; simpl;
    try (split; [discriminate | discriminate]); try tauto.
  rewrite andb_true_iff, Ascii.eqb_eq, IH.
  split; [intros [-> ->]; reflexivity | intros H; inversion H; auto].
Qed.

Lemma strictEq_refl (a : jsstring) : strictEq a a = true.
Proof. apply strictEq_eq; reflexivity. Qed.

Lemma includes_In (arr : list jsstring) (x : jsstring) :
  includes arr x = true <-> In x arr.
Proof.
  unfold includes; rewrite existsb_exists; split.
  - intros [y [Hy E]]. apply strictEq_eq in E; subst; assumption.
  - intros H; exists x; split; [assumption | apply strictEq_refl].
Qed.

Lemma includes_not_In (arr : list jsstring) (x : jsstring) :
  includes arr x = false <-> ~ In x arr.
Proof.
  rewrite <- includes_In. destruct (includes arr x); split; intros H;
    try reflexivity; try discriminate; try (intros E; discriminate).
  exfalso; apply H; reflexivity.
Qed.

Lemma toLowerChar_idempotent (c : ascii) :
  toLowerChar (toLowerChar c) = toLowerChar c.
Proof.
  destruct c as [[] [] [] [] [] [] [] []]; vm_compute; reflexivity.
Qed.

Lemma toLowerCase_idempotent (s : jsstring) :
  toLowerCase (toLowerCase s) = toLowerCase s.
Proof.
  unfold toLowerCase; rewrite map_map.
  apply map_ext; intros c; apply toLowerChar_idempotent.
Qed.

(* ================================================================== *)
(** ** The matcher decides the language *)

Ltac inv H := inversion H; subst; clear H.

Section Matcher.

Lemma nullable_lang (r : regex) : nullable r = true <-> lang r [].
Proof.
  induction r as [| |p|r1 IH1 r2 IH2|r1 IH1 r2 IH2|r IH]; simpl.
  - split; [discriminate | intros H; inv H].
  - split; [intros _; constructor | reflexivity].
  - split; [discriminate | intros H; inv H].
  - rewrite andb_true_iff, IH1, IH2; split.
    + intros [H1 H2]. change (@nil ascii) with (@nil ascii ++ []).
      constructor; assumption.
    + intros H; inversion H; subst.
      match goal with
      | E : _ ++ _ = [] |- _ => apply app_eq_nil in E; destruct E; subst
      end.
      auto.
  - rewrite orb_true_iff, IH1, IH2; split.
    + intros [H|H]; [apply L_alt_l | apply L_alt_r]; assumption.
    + intros H; inv H; auto.
  - split; [intros _; constructor | reflexivity].
Qed.

(** A non-empty word of [r*] starts with a non-empty word of [r]. *)
Lemma star_cons_inv (r : regex) (c : ascii) (s : jsstring) :
  lang (Star r) (c :: s) ->
  exists s1 s2, s = s1 ++ s2 /\ lang r (c :: s1) /\ lang (Star r) s2.
Proof.
  intros H. remember (Star r) as r' eqn:Er. remember (c :: s) as t eqn:Et.
  revert Er Et.
  induction H as [| | | | | |r0 s1 s2 H1 _ H2 IH2]; intros Er Et;
    try discriminate.
  inversion Er; subst r0; clear Er.
  destruct s1 as [|c1 s1]; simpl in Et.
  - apply IH2; auto.
  - inversion Et; subst. exists s1, s2; auto.
Qed.

(** Words of a concatenation that start with [c]. *)
Lemma cat_cons_inv (r1 r2 : regex) (c : ascii) (s : jsstring) :
  lang (Cat r1 r2) (c :: s) ->
  (exists s1 s2, s = s1 ++ s2 /\ lang r1 (c :: s1) /\ lang r2 s2)
  \/ (lang r1 [] /\ lang r2 (c :: s)).
Proof.
  intros H. remember (Cat r1 r2) as r' eqn:Er. remember (c :: s) as t eqn:Et.
  destruct H as [| |q1 q2 s1 s2 H1 H2| | | |]; try discriminate.
  inversion Er; subst q1 q2; clear Er.
  destruct s1 as [|c1 s1]; simpl in Et.
  - right; subst; auto.
  - inversion Et; subst. left; exists s1, s2; auto.
Qed.

Lemma deriv_lang (r : regex) :
  forall c s, lang (deriv c r) s <-> lang r (c :: s).
Proof.
  induction r as [| |p|r1 IH1 r2 IH2|r1 IH1 r2 IH2|r IH]; intros c s; simpl.
  - split; intros H; inv H.
  - split; intros H; inv H.
  - destruct (p c) eqn:Ep; split; intros H.
    + inv H. constructor; assumption.
    + inv H. constructor.
    + inv H.
    + inv H. congruence.
  - assert (Hcat : lang (Cat (deriv c r1) r2) s ->
                   lang (Cat r1 r2) (c :: s)).
    { intros H; inv H.
      match goal with
      | H1 : lang (deriv c r1) ?s1 |- lang _ (c :: ?s1 ++ ?s2) =>
          apply IH1 in H1; change (c :: s1 ++ s2) with ((c :: s1) ++ s2)
      end.
      constructor; assumption. }
    assert (Hinv : lang (Cat r1 r2) (c :: s) ->
                   lang (Cat (deriv c r1) r2) s
                   \/ (lang r1 [] /\ lang r2 (c :: s))).
    { intros H; apply cat_cons_inv in H.
      destruct H as [(s1 & s2 & -> & H1 & H2)|H]; [left|right; exact H].
      constructor; [apply IH1|]; assumption. }
    destruct (nullable r1) eqn:En.
    + split; intros H.
      * inv H; [auto|].
        change (c :: s) with ([] ++ c :: s). constructor.
        -- apply nullable_lang; assumption.
        -- apply IH2; assumption.
      * destruct (Hinv H) as [H'|[_ H']];
          [apply L_alt_l | apply L_alt_r; apply IH2]; assumption.
    + split; [exact Hcat|]. intros H.
      destruct (Hinv H) as [H'|[H' _]]; [assumption|].
      apply nullable_lang in H'; congruence.
  - split; intros H; inv H.
    + apply L_alt_l, IH1; assumption.
    + apply L_alt_r, IH2; assumption.
    + apply L_alt_l, IH1; assumption.
    + apply L_alt_r, IH2; assumption.
  - split; intros H.
    + inv H.
      match goal with
      | H1 : lang (deriv c r) ?s1 |- lang _ (c :: ?s1 ++ ?s2) =>
          apply IH in H1; change (c :: s1 ++ s2) with ((c :: s1) ++ s2)
      end.
      constructor; assumption.
    + apply star_cons_inv in H. destruct H as (s1 & s2 & -> & H1 & H2).
      constructor; [apply IH|]; assumption.
Qed.

Lemma matches_lang (s : jsstring) :
  forall r, matches r s = true <-> lang r s.
Proof.
  induction s as [|c s IH]; intros r; simpl.
  - apply nullable_lang.
  - rewrite IH. apply deriv_lang.
Qed.

End Matcher.

(* ================================================================== *)
(** ** Patterns of the catalog *)

Section Patterns.

Variable p : ascii -> bool.

Lemma lang_star_class (s : jsstring) :
  lang (Star (Class p)) s <-> forallb p s = true.
Proof.
  split.
  - intros H. remember (Star (Class p)) as r eqn:Er.
    induction H as [| | | | | |r0 s1 s2 H1 _ H2 IH2]; try discriminate.
    + reflexivity.
    + inversion Er; subst r0. inv H1. simpl.
      rewrite IH2 by reflexivity.
      rewrite andb_true_r; assumption.
  - induction s as [|c s IH]; simpl; intros H.
    + constructor.
    + apply andb_true_iff in H; destruct H as [Hc Hs].
      change (c :: s) with ([c] ++ s).
      constructor; [constructor; assumption | auto].
Qed.

Lemma lang_plus_class (s : jsstring) :
  lang (Plus (Class p)) s <-> s <> [] /\ forallb p s = true.
Proof.
  unfold Plus; split.
  - intros H; inv H.
    match goal with H1 : lang (Class p) _ |- _ => inv H1 end.
    simpl; split; [discriminate|].
    apply andb_true_iff; split; [assumption | apply lang_star_class; assumption].
  - intros [Hne H]. destruct s as [|c s]; [congruence|].
    simpl in H; apply andb_true_iff in H; destruct H as [Hc Hs].
    change (c :: s) with ([c] ++ s).
    constructor; [constructor; assumption | apply lang_star_class; assumption].
Qed.

Lemma lang_eps_l (r : regex) (s : jsstring) : lang (Cat Eps r) s <-> lang r s.
Proof.
  split; intros H.
  - inv H. match goal with H1 : lang Eps _ |- _ => inv H1 end. assumption.
  - change s with ([] ++ s). constructor; [constructor | assumption].
Qed.

Lemma lang_eps_r (r : regex) (s : jsstring) : lang (Cat r Eps) s <-> lang r s.
Proof.
  split; intros H.
  - inv H. match goal with H2 : lang Eps _ |- _ => inv H2 end.
    rewrite app_nil_r; assumption.
  - rewrite <- (app_nil_r s). constructor; [assumption | constructor].
Qed.

(** [/^[...]+$/.test(s)]: [s] is not empty and all of its code units are in
    the class. *)
Lemma test_anchored_plus_class (s : jsstring) :
  test (Pattern true (Plus (Class p)) true) s = true
  <-> s <> [] /\ forallb p s = true.
Proof.
  unfold test; simpl anchoredStart; simpl anchoredEnd; simpl body; cbv iota.
  rewrite matches_lang, lang_eps_l, lang_eps_r. apply lang_plus_class.
Qed.

End Patterns.

(** [/[...]/.test(s)]: some code unit of [s] is in the class. *)
Lemma test_unanchored_class (p : ascii -> bool) (s : jsstring) :
  test (Pattern false (Class p) false) s = true <-> existsb p s = true.
Proof.
  unfold test; simpl anchoredStart; simpl anchoredEnd; simpl body; cbv iota.
  assert (Hany : forall t, lang (Star anyChar) t).
  { intros t. apply (lang_star_class (fun _ => true)).
    induction t; simpl; auto. }
  rewrite matches_lang, existsb_exists. split.
  - intros H; inv H.
    match goal with H2 : lang (Cat (Class p) _) _ |- _ => inv H2 end.
    match goal with H1 : lang (Class p) _ |- _ => inv H1 end.
    eexists; split; [|eassumption].
    apply in_or_app; right; left; reflexivity.
  - intros (c & Hin & Hc). apply in_split in Hin.
    destruct Hin as (s1 & s2 & ->).
    constructor; [apply Hany|].
    change (c :: s2) with ([c] ++ s2).
    constructor; [constructor; assumption | apply Hany].
Qed.

(* ================================================================== *)
(** ** The rule loop *)

Lemma FieldName_eqb_eq (f g : FieldName) : FieldName_eqb f g = true <-> f = g.
Proof. destruct f, g; simpl; split; intros H; congruence. Qed.

Lemma FieldName_eqb_refl (f : FieldName) : FieldName_eqb f f = true.
Proof. destruct f; reflexivity. Qed.

Lemma FieldName_eqb_neq (f g : FieldName) : f <> g -> FieldName_eqb f g = false.
Proof. destruct f, g; simpl; intros H; congruence. Qed.

Section RuleLoop.

Variables (ls : LocalStorage) (v : jsstring) (formData : FormFields).

Let ok (rule : ValidationRule) : bool := validate rule ls v (Some formData).

(** The loop leaves at the first rule whose predicate is false, whatever
    rules come after it. *)
Lemma firstFailing_first (pre post : list ValidationRule) (r : ValidationRule) :
  forallb ok pre = true -> ok r = false ->
  firstFailing (pre ++ r :: post) ls v formData = Some r.
Proof.
  induction pre as [|q pre IH]; simpl; intros Hpre Hr.
  - unfold ok in Hr; rewrite Hr; reflexivity.
  - apply andb_true_iff in Hpre; destruct Hpre as [Hq Hpre].
    unfold ok in Hq; rewrite Hq; simpl. apply IH; assumption.
Qed.

Lemma firstFailing_None (rs : list ValidationRule) :
  firstFailing rs ls v formData = None <-> forallb ok rs = true.
Proof.
  induction rs as [|q rs IH]; simpl; [tauto|].
  unfold ok at 1. destruct (validate q ls v (Some formData)); simpl.
  - exact IH.
  - split; discriminate.
Qed.

Lemma firstFailing_Some (rs : list ValidationRule) (r : ValidationRule) :
  firstFailing rs ls v formData = Some r ->
  exists pre post,
    rs = pre ++ r :: post /\ forallb ok pre = true /\ ok r = false.
Proof.
  induction rs as [|q rs IH]; simpl; [discriminate|].
  destruct (validate q ls v (Some formData)) eqn:Eq; simpl; intros H.
  - destruct (IH H) as (pre & post & -> & Hpre & Hr).
    exists (q :: pre), post; simpl. unfold ok at 1; rewrite Eq; auto.
  - inversion H; subst. exists [], rs; auto.
Qed.

End RuleLoop.

(* ================================================================== *)
(** ** [validateField] on the page *)

Section ValidateField.

Variable this : FormValidator.

Lemma validateField_fst (field : FieldName) (w : World) :
  fst (validateField this field w)
  = match firstFailing (rules this field) (localStorage w)
            (getField (getFormData w) field) (getFormData w) with
    | Some _ => false
    | None => true
    end.
Proof.
  unfold validateField.
  destruct (firstFailing _ _ _ _); reflexivity.
Qed.

Lemma evaluateField_firstFailing (field : FieldName) (w : World) :
  evaluateField this field w
  = match firstFailing (rules this field) (localStorage w)
            (getField (getFormData w) field) (getFormData w) with
    | Some rule => Invalid (message rule)
    | None => Valid
    end.
Proof.
  unfold evaluateField, outcome, validateField.
  destruct (firstFailing _ _ _ _); simpl; [|reflexivity].
  rewrite FieldName_eqb_refl; reflexivity.
Qed.

Lemma evaluateField_Valid (field : FieldName) (w : World) :
  evaluateField this field w = Valid <-> fst (validateField this field w) = true.
Proof.
  unfold evaluateField, outcome.
  destruct (fst (validateField this field w)); split; congruence.
Qed.

(** [validateField] changes no value of a control. *)
Lemma validateField_value (field g : FieldName) (w : World) :
  value (getInput (snd (validateField this field w)) g) = value (getInput w g).
Proof.
  unfold validateField.
  destruct (FieldName_eqb g field) eqn:E.
  - apply FieldName_eqb_eq in E; subst g.
    destruct (firstFailing _ _ _ _); simpl;
      rewrite !FieldName_eqb_refl; reflexivity.
  - destruct (firstFailing _ _ _ _); simpl; rewrite !E; reflexivity.
Qed.

Lemma validateField_getFormData (field : FieldName) (w : World) :
  getFormData (snd (validateField this field w)) = getFormData w.
Proof.
  unfold getFormData. rewrite !validateField_value. reflexivity.
Qed.

Lemma validateField_localStorage (field : FieldName) (w : World) :
  localStorage (snd (validateField this field w)) = localStorage w.
Proof.
  unfold validateField. destruct (firstFailing _ _ _ _); reflexivity.
Qed.

(** [validateField] touches the control and the span of its own field
    only. *)
Lemma validateField_other (field g : FieldName) (w : World) :
  g <> field ->
  getInput (snd (validateField this field w)) g = getInput w g
  /\ getError (snd (validateField this field w)) g = getError w g.
Proof.
  intros Hne. apply FieldName_eqb_neq in Hne.
  unfold validateField.
  destruct (firstFailing _ _ _ _); simpl; rewrite Hne; auto.
Qed.

(** What [validateField] returns, and what it leaves in the control and the
    span of its field, depends on the values of the controls, on
    [localStorage] and on that control only. *)
Lemma validateField_reads (field : FieldName) (w1 w2 : World) :
  getFormData w1 = getFormData w2 ->
  localStorage w1 = localStorage w2 ->
  getInput w1 field = getInput w2 field ->
  fst (validateField this field w1) = fst (validateField this field w2)
  /\ getInput (snd (validateField this field w1)) field
     = getInput (snd (validateField this field w2)) field
  /\ getError (snd (validateField this field w1)) field
     = getError (snd (validateField this field w2)) field.
Proof.
  intros Hd Hl Hi. unfold validateField. rewrite Hd, Hl.
  destruct (firstFailing _ _ _ _); simpl;
    rewrite !FieldName_eqb_refl, Hi; auto.
Qed.

End ValidateField.

(* ================================================================== *)
(** ** The first failing rule decides the outcome *)

(** C2: [validateField] returns the message of the first rule, in the order
    of the field's rule list, whose predicate is false on
    [(formData[field], formData)], whatever rules come after it, so that
    those rules have no part in the result; when every predicate is true the
    outcome is [Valid]; one of the two always is the case.  In particular a
    value that fails the second and the third rule gets the second rule's
    message. *)
Theorem validateField_first_failing_rule
    (this : FormValidator) (field : FieldName) (w : World) :
  (forall pre r post,
      rules this field = pre ++ r :: post ->
      forallb (passes w field) pre = true ->
      passes w field r = false ->
      fst (validateField this field w) = false
      /\ evaluateField this field w = Invalid (message r))
  /\ (forallb (passes w field) (rules this field) = true ->
      fst (validateField this field w) = true
      /\ evaluateField this field w = Valid)
  /\ (evaluateField this field w = Valid
      \/ exists pre r post,
           rules this field = pre ++ r :: post
           /\ forallb (passes w field) pre = true
           /\ passes w field r = false
           /\ evaluateField this field w = Invalid (message r))
  /\ (forall r1 r2 r3 rest,
      rules this field = r1 :: r2 :: r3 :: rest ->
      passes w field r1 = true ->
      passes w field r2 = false ->
      passes w field r3 = false ->
      evaluateField this field w = Invalid (message r2)).
Proof.
  assert (Hfirst : forall pre r post,
      rules this field = pre ++ r :: post ->
      forallb (passes w field) pre = true ->
      passes w field r = false ->
      fst (validateField this field w) = false
      /\ evaluateField this field w = Invalid (message r)).
  { intros pre r post Hr Hpre Hfail.
    rewrite validateField_fst, evaluateField_firstFailing, Hr.
    unfold passes in Hpre, Hfail.
    rewrite (firstFailing_first _ _ _ pre post r Hpre Hfail). auto. }
  split; [exact Hfirst|]. split; [|split].
  - intros Hall.
    rewrite validateField_fst, evaluateField_firstFailing.
    unfold passes in Hall. apply firstFailing_None in Hall.
    rewrite Hall; auto.
  - rewrite evaluateField_firstFailing.
    destruct (firstFailing _ _ _ _) as [r|] eqn:E; [right|left; reflexivity].
    apply firstFailing_Some in E. destruct E as (pre & post & Hr & Hpre & Hf).
    exists pre, r, post; auto.
  - intros r1 r2 r3 rest Hr H1 H2 _.
    apply (Hfirst [r1] r2 (r3 :: rest)); simpl; auto.
    rewrite H1; reflexivity.
Qed.

(** The name ["1"] is too short and is not made of letters: the message is
    the one of the length rule. *)
Lemma validateField_first_failing_rule_witness :
  evaluateField new Name (page (js "1") [] [] [] None)
  = Invalid (js "Name must be at least 2 characters long").
Proof.
  refine (proj2 (proj2 (proj2
    (validateField_first_failing_rule new Name (page (js "1") [] [] [] None))))
    _ _ _ [] eq_refl _ _ _); reflexivity.
Defined.

(* ================================================================== *)
(** ** [validateAll] *)

Section ValidateAll.

Variable this : FormValidator.

Lemma validateField_fst_reads (field : FieldName) (w1 w2 : World) :
  getFormData w1 = getFormData w2 ->
  localStorage w1 = localStorage w2 ->
  fst (validateField this field w1) = fst (validateField this field w2).
Proof.
  intros Hd Hl. rewrite !validateField_fst, Hd, Hl. reflexivity.
Qed.

(** The boolean of the iteration is the conjunction of the per-field
    booleans on the page the iteration started from. *)
Lemma every_validateField_fst (arr : list FieldName) :
  forall w w0,
    getFormData w = getFormData w0 ->
    localStorage w = localStorage w0 ->
    fst (every (fun field => validateField this field) arr w)
    = forallb (fun field => fst (validateField this field w0)) arr.
Proof.
  induction arr as [|g arr IH]; intros w w0 Hd Hl; simpl; [reflexivity|].
  rewrite <- (validateField_fst_reads g w w0 Hd Hl).
  destruct (validateField this g w) as [b w1] eqn:E; simpl.
  destruct b; [|reflexivity].
  apply IH.
  - rewrite <- Hd, <- (validateField_getFormData this g w), E. reflexivity.
  - rewrite <- Hl, <- (validateField_localStorage this g w), E. reflexivity.
Qed.

Lemma fieldsBefore_notin (field : FieldName) (arr : list FieldName) :
  ~ In field arr -> existsb (FieldName_eqb field) arr = false.
Proof.
  induction arr as [|g arr IH]; simpl; intros H; [reflexivity|].
  rewrite IH by tauto.
  rewrite FieldName_eqb_neq; [reflexivity|]. intros E; apply H; auto.
Qed.

(** What the iteration leaves for one field: its own outcome when it is
    listed and every field listed before it passes, and otherwise what was
    there before. *)
Lemma every_validateField_controls (arr : list FieldName) :
  NoDup arr ->
  forall w w0 field,
    getFormData w = getFormData w0 ->
    localStorage w = localStorage w0 ->
    controls (snd (every (fun g => validateField this g) arr w)) field
    = if forallb (fun g => fst (validateField this g w0))
                 (fieldsBefore field arr)
         && existsb (FieldName_eqb field) arr
      then controls (snd (validateField this field w)) field
      else controls w field.
Proof.
  induction 1 as [|g arr Hnotin Hnd IH]; intros w w0 field Hd Hl; simpl.
  - reflexivity.
  - assert (Hd1 : getFormData (snd (validateField this g w)) = getFormData w0)
      by (rewrite validateField_getFormData; exact Hd).
    assert (Hl1 : localStorage (snd (validateField this g w)) = localStorage w0)
      by (rewrite validateField_localStorage; exact Hl).
    assert (Hb : fst (validateField this g w) = fst (validateField this g w0))
      by (apply validateField_fst_reads; assumption).
    destruct (validateField this g w) as [b w1] eqn:E; simpl in *.
    destruct (FieldName_eqb g field) eqn:Eg.
    + apply FieldName_eqb_eq in Eg; subst g.
      rewrite FieldName_eqb_refl, E; simpl.
      destruct b; [|reflexivity].
      rewrite (IH w1 w0 field Hd1 Hl1).
      rewrite (fieldsBefore_notin _ _ Hnotin), andb_false_r. reflexivity.
    + assert (Hne : field <> g).
      { intros ->. rewrite FieldName_eqb_refl in Eg; discriminate. }
      rewrite (FieldName_eqb_neq field g Hne); simpl.
      rewrite <- Hb.
      assert (Hother : controls w1 field = controls w field).
      { unfold controls.
        destruct (validateField_other this g field w Hne) as [Hi He].
        rewrite E in Hi, He; simpl in Hi, He. rewrite Hi, He; reflexivity. }
      destruct b; simpl; [|exact Hother].
      rewrite (IH w1 w0 field Hd1 Hl1), Hother.
      destruct (_ && _); [|reflexivity].
      unfold controls.
      assert (Hi : getInput w1 field = getInput w field)
        by (unfold controls in Hother; congruence).
      destruct (validateField_reads this field w1 w
                  (eq_trans Hd1 (eq_sym Hd)) (eq_trans Hl1 (eq_sym Hl)) Hi)
        as (_ & Hi' & He').
      rewrite Hi', He'; reflexivity.
Qed.

End ValidateAll.

Lemma NoDup_fields_new : NoDup (fields new).
Proof.
  simpl. repeat constructor; simpl; intuition discriminate.
Qed.

(** C3: [validateAll] returns [true] exactly when [validateField] finds each
    of the four fields [Valid]; with an [Invalid] field it returns
    [false]. *)
Theorem validateAll_true_iff_all_valid (w : World) :
  (fst (validateAll new w) = true
   <-> forall field, evaluateField new field w = Valid)
  /\ ((exists field msg, evaluateField new field w = Invalid msg) ->
      fst (validateAll new w) = false).
Proof.
  assert (Hiff : fst (validateAll new w) = true
                 <-> forall field, evaluateField new field w = Valid).
  { unfold validateAll.
    rewrite (every_validateField_fst new (fields new) w w eq_refl eq_refl).
    rewrite forallb_forall. split.
    - intros H field. apply evaluateField_Valid, H.
      destruct field; simpl; auto.
    - intros H field _. apply evaluateField_Valid, H. }
  split; [exact Hiff|].
  intros (field & msg & Hinv).
  destruct (fst (validateAll new w)) eqn:E; [|reflexivity].
  rewrite (proj1 Hiff eq_refl field) in Hinv. discriminate.
Qed.

(** A record that passes every rule, and the empty record. *)
Lemma validateAll_true_iff_all_valid_witness :
  fst (validateAll new
         (page (js "Al") (js "a@b.com") (js "Password1!") (js "Password1!")
               None)) = true
  /\ fst (validateAll new (page [] [] [] [] None)) = false.
Proof.
  split.
  - apply (proj1 (validateAll_true_iff_all_valid _)).
    intros field; destruct field; reflexivity.
  - apply (proj2 (validateAll_true_iff_all_valid _)).
    exists Name, (js "Name is required"); reflexivity.
Defined.

(** C1, as stated, fails: on the form with four empty controls the email
    field on its own is [Invalid] with "Email is required", but [validateAll]
    stops at the name field, which fails first, and leaves the email control
    and the email error span as they were. *)
Lemma validateAll_leaves_later_fields :
  evaluateField new Name (page [] [] [] [] None)
  = Invalid (js "Name is required")
  /\ evaluateField new Email (page [] [] [] [] None)
     = Invalid (js "Email is required")
  /\ fst (validateAll new (page [] [] [] [] None)) = false
  /\ controls (snd (validateAll new (page [] [] [] [] None))) Email
     = controls (page [] [] [] [] None) Email
  /\ controls (snd (validateAll new (page [] [] [] [] None))) Email
     <> controls (snd (validateField new Email (page [] [] [] [] None))) Email.
Proof.
  repeat split; try reflexivity.
  vm_compute. discriminate.
Qed.

(** C1, amended: [validateAll] runs [validateField] on the fields in the
    order name, email, password, confirmPassword and stops after the first
    field that fails.  A field whose predecessors all pass is validated, and
    the page then shows its own outcome; a field that comes after a failing
    one is not validated: its control and error span stay as they were. *)
Theorem validateAll_stops_at_first_invalid (w : World) (field : FieldName) :
  fields new = [Name; Email; Password; ConfirmPassword]
  /\ controls (snd (validateAll new w)) field
     = if allValidBefore new field w
       then controls (snd (validateField new field w)) field
       else controls w field.
Proof.
  split; [reflexivity|].
  unfold validateAll, allValidBefore.
  rewrite (every_validateField_controls new (fields new) NoDup_fields_new
             w w field eq_refl eq_refl).
  replace (existsb (FieldName_eqb field) (fields new)) with true
    by (destruct field; reflexivity).
  rewrite andb_true_r. reflexivity.
Qed.

(* ================================================================== *)
(** ** The four rule lists, unfolded *)

Section Catalog.

Variable w : World.

Lemma evaluateField_name :
  evaluateField new Name w
  = let v := value (getInput w Name) in
    if 0 <? List.length (trim v) then
      if 2 <=? List.length (trim v) then
        if test re_name (trim v) then Valid
        else Invalid (js "Name can only contain letters and spaces")
      else Invalid (js "Name must be at least 2 characters long")
    else Invalid (js "Name is required").
Proof.
  rewrite evaluateField_firstFailing.
  change (rules new Name) with rules_name.
  unfold rules_name; cbn [firstFailing validate message getField getFormData name].
  cbv zeta.
  destruct (0 <? _); [|reflexivity].
  destruct (2 <=? _); [|reflexivity].
  destruct (test _ _); reflexivity.
Qed.

Lemma evaluateField_email :
  evaluateField new Email w
  = let v := value (getInput w Email) in
    if 0 <? List.length (trim v) then
      if test re_email (trim v) then
        if isEmailRegistered (localStorage w) (trim v)
        then Invalid (js "This email is already registered")
        else Valid
      else Invalid (js "Please enter a valid email address")
    else Invalid (js "Email is required").
Proof.
  rewrite evaluateField_firstFailing.
  change (rules new Email) with rules_email.
  unfold rules_email; cbn [firstFailing validate message getField getFormData email].
  cbv zeta.
  destruct (0 <? _); [|reflexivity].
  destruct (test _ _); [|reflexivity].
  destruct (isEmailRegistered _ _); reflexivity.
Qed.

Lemma evaluateField_password :
  evaluateField new Password w
  = let v := value (getInput w Password) in
    if 0 <? List.length v then
      if 8 <=? List.length v then
        if test re_upper v then
          if test re_lower v then
            if test re_digit v then
              if test re_special v then Valid
              else Invalid
                (js "Password must contain at least one special character")
            else Invalid (js "Password must contain at least one number")
          else Invalid
            (js "Password must contain at least one lowercase letter")
        else Invalid
          (js "Password must contain at least one uppercase letter")
      else Invalid (js "Password must be at least 8 characters long")
    else Invalid (js "Password is required").
Proof.
  rewrite evaluateField_firstFailing.
  change (rules new Password) with rules_password.
  unfold rules_password;
    cbn [firstFailing validate message getField getFormData password].
  cbv zeta.
  destruct (0 <? _); [|reflexivity].
  destruct (8 <=? _); [|reflexivity].
  destruct (test re_upper _); [|reflexivity].
  destruct (test re_lower _); [|reflexivity].
  destruct (test re_digit _); [|reflexivity].
  destruct (test re_special _); reflexivity.
Qed.

Lemma evaluateField_confirmPassword :
  evaluateField new ConfirmPassword w
  = let v := value (getInput w ConfirmPassword) in
    if 0 <? List.length v then
      if strictEq v (value (getInput w Password)) then Valid
      else Invalid (js "Passwords do not match")
    else Invalid (js "Please confirm your password").
Proof.
  rewrite evaluateField_firstFailing.
  change (rules new ConfirmPassword) with rules_confirmPassword.
  unfold rules_confirmPassword;
    cbn [firstFailing validate message getField getFormData
         confirmPassword password].
  cbv zeta.
  destruct (0 <? _); [|reflexivity].
  destruct (strictEq _ _); reflexivity.
Qed.

End Catalog.

(* ================================================================== *)
(** ** confirmPassword *)

(** C4: the second rule of confirmPassword is false when no record is
    passed, and with a record it is true exactly when the value is
    [record.password], code unit for code unit; so for a non-empty
    confirmPassword the field is [Valid] exactly when the two values are
    equal, and otherwise [Invalid] with "Passwords do not match".  Case and
    trailing white space count. *)
Theorem confirmPassword_exact_match :
  (exists r1 r2,
      rules new ConfirmPassword = [r1; r2]
      /\ message r2 = js "Passwords do not match"
      /\ (forall ls v, validate r2 ls v None = false)
      /\ (forall ls v data,
            validate r2 ls v (Some data) = true <-> v = password data))
  /\ (forall w,
        value (getInput w ConfirmPassword) <> [] ->
        (evaluateField new ConfirmPassword w = Valid
         <-> value (getInput w ConfirmPassword) = value (getInput w Password))
        /\ (value (getInput w ConfirmPassword) <> value (getInput w Password) ->
            evaluateField new ConfirmPassword w
            = Invalid (js "Passwords do not match")))
  /\ (forall w,
        value (getInput w Password) = js "Abc12345!" ->
        value (getInput w ConfirmPassword) = js "abc12345!" ->
        evaluateField new ConfirmPassword w
        = Invalid (js "Passwords do not match"))
  /\ (forall w,
        value (getInput w Password) = js "Abc12345!" ->
        value (getInput w ConfirmPassword) = js "Abc12345! " ->
        evaluateField new ConfirmPassword w
        = Invalid (js "Passwords do not match"))
  /\ (forall w,
        value (getInput w Password) = js "Abc12345!" ->
        value (getInput w ConfirmPassword) = js "Abc12345!" ->
        evaluateField new ConfirmPassword w = Valid).
Proof.
  split; [|split; [|repeat split]].
  - eexists; eexists. split; [reflexivity|]. split; [reflexivity|].
    split; [reflexivity|].
    intros ls v data; simpl. apply strictEq_eq.
  - intros w Hne. rewrite evaluateField_confirmPassword; cbv zeta.
    destruct (value (getInput w ConfirmPassword)) as [|c v] eqn:Ev;
      [congruence|].
    change (0 <? List.length (c :: v)) with true; cbv iota.
    destruct (strictEq (c :: v) (value (getInput w Password))) eqn:E.
    + apply strictEq_eq in E. split; [tauto|]. intros H; congruence.
    + split; [|reflexivity]. split; [discriminate|].
      intros H. apply strictEq_eq in H. congruence.
  - intros w Hp Hc. rewrite evaluateField_confirmPassword, Hp, Hc. reflexivity.
  - intros w Hp Hc. rewrite evaluateField_confirmPassword, Hp, Hc. reflexivity.
  - intros w Hp Hc. rewrite evaluateField_confirmPassword, Hp, Hc. reflexivity.
Qed.

(** The two records of the claim, and one with a trailing space. *)
Lemma confirmPassword_exact_match_witness :
  evaluateField new ConfirmPassword
    (page [] [] (js "Abc12345!") (js "abc12345!") None)
  = Invalid (js "Passwords do not match")
  /\ evaluateField new ConfirmPassword
       (page [] [] (js "Abc12345!") (js "Abc12345! ") None)
     = Invalid (js "Passwords do not match")
  /\ evaluateField new ConfirmPassword
       (page [] [] (js "Abc12345!") (js "Abc12345!") None)
     = Valid.
Proof.
  destruct confirmPassword_exact_match as (_ & _ & H1 & H2 & H3).
  split; [|split].
  - apply H1; reflexivity.
  - apply H2; reflexivity.
  - apply H3; reflexivity.
Defined.

(* ================================================================== *)
(** ** name *)

(** C5, as stated, fails: the class of the name rule is [[a-zA-Z\s]], and
    [\s] is more than the space.  A name with a TAB between two letters
    (["A<TAB>B"], which [trim] leaves alone) is [Valid], although its
    trimmed value is not made of letters and spaces only. *)
Lemma name_with_tab_is_valid :
  trim ["A"; "009"; "B"]%char = ["A"; "009"; "B"]%char
  /\ 2 <= List.length (trim ["A"; "009"; "B"]%char)
  /\ forallb letterOrSpace (trim ["A"; "009"; "B"]%char) = false
  /\ evaluateField new Name (page ["A"; "009"; "B"]%char [] [] [] None) = Valid.
Proof.
  repeat split; vm_compute; auto.
Qed.

(** C5, amended: for a name whose trimmed value has at least two code
    units, the field is [Valid] exactly when the trimmed value consists of
    letters A-Z, a-z and white space (the class [\s]: space, TAB, LF, VT, FF,
    CR, NBSP), and otherwise it is [Invalid] with "Name can only contain
    letters and spaces"; "Al" is [Valid], "A" gets the length message and
    "Anna3" the letters-and-spaces message. *)
Theorem name_letters_and_whitespace :
  (forall w,
      2 <= List.length (trim (value (getInput w Name))) ->
      (evaluateField new Name w = Valid
       <-> forallb letterOrWhiteSpace (trim (value (getInput w Name))) = true)
      /\ (forallb letterOrWhiteSpace (trim (value (getInput w Name))) = false ->
          evaluateField new Name w
          = Invalid (js "Name can only contain letters and spaces")))
  /\ (forall w, value (getInput w Name) = js "Al" ->
        evaluateField new Name w = Valid)
  /\ (forall w, value (getInput w Name) = js "A" ->
        evaluateField new Name w
        = Invalid (js "Name must be at least 2 characters long"))
  /\ (forall w, value (getInput w Name) = js "Anna3" ->
        evaluateField new Name w
        = Invalid (js "Name can only contain letters and spaces")).
Proof.
  split; [|repeat split].
  - intros w Hlen. rewrite evaluateField_name; cbv zeta.
    set (t := trim (value (getInput w Name))) in *.
    assert (H0 : (0 <? List.length t) = true) by (apply Nat.ltb_lt; lia).
    assert (H2 : (2 <=? List.length t) = true) by (apply Nat.leb_le; lia).
    rewrite H0, H2.
    assert (Ht : test re_name t = true
                 <-> t <> [] /\ forallb letterOrWhiteSpace t = true)
      by exact (test_anchored_plus_class letterOrWhiteSpace t).
    destruct (test re_name t) eqn:E.
    + destruct (proj1 Ht eq_refl) as [_ Hall]. rewrite Hall.
      split; [tauto | discriminate].
    + split; [|reflexivity]. split; [discriminate|].
      intros Hall. assert (Habs : false = true); [|discriminate].
      apply Ht. split; [|exact Hall].
      intros Hnil; rewrite Hnil in Hlen; simpl in Hlen; lia.
  - intros w Hv. rewrite evaluateField_name, Hv. reflexivity.
  - intros w Hv. rewrite evaluateField_name, Hv. reflexivity.
  - intros w Hv. rewrite evaluateField_name, Hv. reflexivity.
Qed.

(** A name with inner white space of both kinds, and the three names of the
    claim. *)
Lemma name_letters_and_whitespace_witness :
  evaluateField new Name (page ["A"; "009"; "B"; " "; "c"]%char [] [] [] None)
  = Valid
  /\ evaluateField new Name (page (js "Al") [] [] [] None) = Valid
  /\ evaluateField new Name (page (js "A") [] [] [] None)
     = Invalid (js "Name must be at least 2 characters long")
  /\ evaluateField new Name (page (js "Anna3") [] [] [] None)
     = Invalid (js "Name can only contain letters and spaces").
Proof.
  destruct name_letters_and_whitespace as (Hgen & Hal & Ha & Hanna).
  split; [|split; [|split]].
  - apply (Hgen (page ["A"; "009"; "B"; " "; "c"]%char [] [] [] None)).
    + vm_compute. lia.
    + reflexivity.
  - apply Hal; reflexivity.
  - apply Ha; reflexivity.
  - apply Hanna; reflexivity.
Defined.

(* ================================================================== *)
(** ** password *)

(** C6, as stated, fails in its count: after the non-empty check and the
    length check the password rule list has four rules (uppercase,
    lowercase, digit, special character), not five. *)
Lemma password_has_four_class_rules :
  List.length (skipn 2 (rules new Password)) = 4
  /\ List.length (skipn 2 (rules new Password)) <> 5.
Proof.
  split; [reflexivity | discriminate].
Qed.

(** C6, amended: the password rules are, in order, the non-empty check, the
    length check and the four character-class rules uppercase, lowercase,
    digit, special character; "password" gets the uppercase message,
    "Password" the number message, "Password1" the special-character message,
    and "Password1!" is [Valid]. *)
Theorem password_rules_in_order :
  map message (rules new Password)
  = [ js "Password is required";
      js "Password must be at least 8 characters long";
      js "Password must contain at least one uppercase letter";
      js "Password must contain at least one lowercase letter";
      js "Password must contain at least one number";
      js "Password must contain at least one special character" ]
  /\ (forall w, value (getInput w Password) = js "password" ->
        evaluateField new Password w
        = Invalid (js "Password must contain at least one uppercase letter"))
  /\ (forall w, value (getInput w Password) = js "Password" ->
        evaluateField new Password w
        = Invalid (js "Password must contain at least one number"))
  /\ (forall w, value (getInput w Password) = js "Password1" ->
        evaluateField new Password w
        = Invalid (js "Password must contain at least one special character"))
  /\ (forall w, value (getInput w Password) = js "Password1!" ->
        evaluateField new Password w = Valid).
Proof.
  split; [reflexivity|].
  repeat split; intros w Hv; rewrite evaluateField_password, Hv; reflexivity.
Qed.

(** The four passwords of the claim. *)
Lemma password_rules_in_order_witness :
  evaluateField new Password (page [] [] (js "password") [] None)
  = Invalid (js "Password must contain at least one uppercase letter")
  /\ evaluateField new Password (page [] [] (js "Password") [] None)
     = Invalid (js "Password must contain at least one number")
  /\ evaluateField new Password (page [] [] (js "Password1") [] None)
     = Invalid (js "Password must contain at least one special character")
  /\ evaluateField new Password (page [] [] (js "Password1!") [] None) = Valid.
Proof.
  destruct password_rules_in_order as (_ & H1 & H2 & H3 & H4).
  split; [|split; [|split]].
  - apply H1; reflexivity.
  - apply H2; reflexivity.
  - apply H3; reflexivity.
  - apply H4; reflexivity.
Defined.

(* ================================================================== *)
(** ** email *)

(** C7: the required rule comes before the format rule.  The empty email,
    which fails both, gets "Email is required"; "a@b" gets the format
    message; on "a@b.com" the required rule and the format rule both pass,
    and the field is [Valid] unless the address is registered. *)
Theorem email_required_before_format :
  map message (rules new Email)
  = [ js "Email is required";
      js "Please enter a valid email address";
      js "This email is already registered" ]
  /\ (forall w, value (getInput w Email) = [] ->
        forallb (fun rule => negb (passes w Email rule))
                (firstn 2 (rules new Email)) = true
        /\ evaluateField new Email w = Invalid (js "Email is required"))
  /\ (forall w, value (getInput w Email) = js "a@b" ->
        evaluateField new Email w
        = Invalid (js "Please enter a valid email address"))
  /\ (forall w, value (getInput w Email) = js "a@b.com" ->
        forallb (passes w Email) (firstn 2 (rules new Email)) = true
        /\ evaluateField new Email w
           = if isEmailRegistered (localStorage w) (js "a@b.com")
             then Invalid (js "This email is already registered")
             else Valid).
Proof.
  split; [reflexivity|]. split; [|split].
  - intros w Hv. split.
    + unfold passes; simpl. rewrite Hv. reflexivity.
    + rewrite evaluateField_email, Hv. reflexivity.
  - intros w Hv. rewrite evaluateField_email, Hv. reflexivity.
  - intros w Hv. split.
    + unfold passes; simpl. rewrite Hv. reflexivity.
    + rewrite evaluateField_email, Hv. reflexivity.
Qed.

(** The three addresses of the claim, on a page with no registry. *)
Lemma email_required_before_format_witness :
  evaluateField new Email (page [] [] [] [] None)
  = Invalid (js "Email is required")
  /\ evaluateField new Email (page [] (js "a@b") [] [] None)
     = Invalid (js "Please enter a valid email address")
  /\ evaluateField new Email (page [] (js "a@b.com") [] [] None) = Valid.
Proof.
  destruct email_required_before_format as (_ & H1 & H2 & H3).
  split; [|split].
  - apply (H1 (page [] [] [] [] None)); reflexivity.
  - apply H2; reflexivity.
  - apply (H3 (page [] (js "a@b.com") [] [] None)); reflexivity.
Defined.

(** C8: with "x@y.com" in the registry, the email "X@Y.com" is [Invalid]
    with "This email is already registered": the lookup is by the
    lower-cased address. *)
Theorem registered_email_any_case (w : World) :
  value (getInput w Email) = js "X@Y.com" ->
  In (js "x@y.com") (getRegisteredEmails (localStorage w)) ->
  evaluateField new Email w = Invalid (js "This email is already registered").
Proof.
  intros Hv Hin. rewrite evaluateField_email, Hv; cbv zeta.
  change (trim (js "X@Y.com")) with (js "X@Y.com").
  change (0 <? List.length (js "X@Y.com")) with true.
  change (test re_email (js "X@Y.com")) with true.
  cbv iota. unfold isEmailRegistered.
  change (toLowerCase (js "X@Y.com")) with (js "x@y.com").
  apply includes_In in Hin. rewrite Hin. reflexivity.
Qed.

Lemma registered_email_any_case_witness :
  evaluateField new Email
    (page [] (js "X@Y.com") [] [] (Some [js "a@b.com"; js "x@y.com"]))
  = Invalid (js "This email is already registered").
Proof.
  apply registered_email_any_case.
  - reflexivity.
  - simpl. right; left; reflexivity.
Defined.

(* ================================================================== *)
(** ** The registry *)

Lemma NoDup_snoc (l : list jsstring) (x : jsstring) :
  NoDup l -> ~ In x l -> NoDup (l ++ [x]).
Proof.
  induction 1 as [|y l Hy Hnd IH]; simpl; intros Hx.
  - constructor; [intros [] | constructor].
  - constructor.
    + rewrite in_app_iff; simpl. intros [H|[H|[]]]; [tauto|].
      apply Hx; left; symmetry; exact H.
    + apply IH. intros H; apply Hx; right; exact H.
Qed.

(** C9: [saveEmail] keeps the registry a duplicate-free list of lower-case
    strings, and afterwards the registry holds the lower-cased address. *)
Theorem saveEmail_keeps_registry (email : jsstring) (ls : LocalStorage) :
  registryOk (getRegisteredEmails ls) ->
  registryOk (getRegisteredEmails (saveEmail email ls))
  /\ In (toLowerCase email) (getRegisteredEmails (saveEmail email ls)).
Proof.
  intros [Hnd Hlow]. unfold saveEmail.
  destruct (includes (getRegisteredEmails ls) (toLowerCase email)) eqn:E;
    simpl.
  - split; [split; assumption|]. apply includes_In; exact E.
  - apply includes_not_In in E. split; [split|].
    + apply NoDup_snoc; assumption.
    + apply Forall_app; split; [assumption|].
      constructor; [|constructor].
      unfold isLowerCase. apply toLowerCase_idempotent.
    + apply in_or_app; right; left; reflexivity.
Qed.

(** Saving "X@Y.com" into a registry that holds "a@b.com". *)
Lemma saveEmail_keeps_registry_witness :
  registryOk (getRegisteredEmails (saveEmail (js "X@Y.com") (Some [js "a@b.com"])))
  /\ In (toLowerCase (js "X@Y.com"))
        (getRegisteredEmails (saveEmail (js "X@Y.com") (Some [js "a@b.com"]))).
Proof.
  apply saveEmail_keeps_registry.
  split.
  - constructor; [intros [] | constructor].
  - constructor; [reflexivity | constructor].
Defined.

(* ================================================================== *)
(** ** What a field's outcome depends on *)

(** C10: the outcome of name and of password depends on that field's value
    only; the outcome of email on its value and the registry; the outcome of
    confirmPassword on the values of confirmPassword and password. *)
Theorem evaluateField_noninterference (w1 w2 : World) :
  (forall field,
      field = Name \/ field = Password ->
      value (getInput w1 field) = value (getInput w2 field) ->
      evaluateField new field w1 = evaluateField new field w2)
  /\ (value (getInput w1 Email) = value (getInput w2 Email) ->
      getRegisteredEmails (localStorage w1)
      = getRegisteredEmails (localStorage w2) ->
      evaluateField new Email w1 = evaluateField new Email w2)
  /\ (value (getInput w1 ConfirmPassword) = value (getInput w2 ConfirmPassword) ->
      value (getInput w1 Password) = value (getInput w2 Password) ->
      evaluateField new ConfirmPassword w1
      = evaluateField new ConfirmPassword w2).
Proof.
  split; [|split].
  - intros field [-> | ->] Hv.
    + rewrite !evaluateField_name, Hv. reflexivity.
    + rewrite !evaluateField_password, Hv. reflexivity.
  - intros Hv Hr. rewrite !evaluateField_email, Hv.
    unfold isEmailRegistered. rewrite Hr. reflexivity.
  - intros Hc Hp. rewrite !evaluateField_confirmPassword, Hc, Hp. reflexivity.
Qed.

(** Two pages that agree on the name only. *)
Lemma evaluateField_noninterference_witness :
  evaluateField new Name
    (page (js "Anna3") [] (js "x") [] None)
  = evaluateField new Name
      (page (js "Anna3") (js "a@b.com") (js "Password1!") (js "y")
            (Some [js "a@b.com"])).
Proof.
  apply (proj1 (evaluateField_noninterference _ _) Name).
  - left; reflexivity.
  - reflexivity.
Defined.

(* ================================================================== *)
(** ** Class lists *)

Lemma strictEq_false (a b : jsstring) : strictEq a b = false <-> a <> b.
Proof.
  rewrite <- strictEq_eq. destruct (strictEq a b); split; intros H;
    try reflexivity; try discriminate; try (intros E; discriminate).
  exfalso; apply H; reflexivity.
Qed.

Lemma In_classList_add (t a : jsstring) (l : list jsstring) :
  In t (classList_add a l) <-> t = a \/ In t l.
Proof.
  unfold classList_add. destruct (includes l a) eqn:E.
  - apply includes_In in E. split; [auto|]. intros [->|H]; assumption.
  - rewrite in_app_iff; simpl. split.
    + intros [H|[H|[]]]; auto.
    + intros [->|H]; auto.
Qed.

Lemma In_classList_remove (t a : jsstring) (l : list jsstring) :
  In t (classList_remove a l) <-> In t l /\ t <> a.
Proof.
  unfold classList_remove. rewrite filter_In, negb_true_iff, strictEq_false.
  reflexivity.
Qed.

Lemma classList_add_present (a : jsstring) (l : list jsstring) :
  In a l -> classList_add a l = l.
Proof.
  intros H. unfold classList_add. apply includes_In in H. rewrite H.
  reflexivity.
Qed.

Lemma classList_remove_absent (a : jsstring) (l : list jsstring) :
  ~ In a l -> classList_remove a l = l.
Proof.
  induction l as [|x l IH]; simpl; intros H; [reflexivity|].
  destruct (strictEq x a) eqn:E; simpl.
  - apply strictEq_eq in E. exfalso; apply H; left; exact E.
  - rewrite IH; [reflexivity|]. intros Hin; apply H; right; exact Hin.
Qed.

(* ================================================================== *)
(** ** What [validateField] writes *)

Section Writes.

Variable this : FormValidator.

Lemma validateField_classList (field : FieldName) (w : World) :
  classList (getInput (snd (validateField this field w)) field)
  = if fst (validateField this field w)
    then classList_add (js "success")
           (classList_remove (js "error") (classList (getInput w field)))
    else classList_remove (js "success")
           (classList_add (js "error") (classList (getInput w field))).
Proof.
  unfold validateField.
  destruct (firstFailing _ _ _ _); simpl;
    rewrite !FieldName_eqb_refl; reflexivity.
Qed.

Lemma validateField_textContent (field : FieldName) (w : World) :
  textContent (getError (snd (validateField this field w)) field)
  = match firstFailing (rules this field) (localStorage w)
            (getField (getFormData w) field) (getFormData w) with
    | Some rule => message rule
    | None => []
    end.
Proof.
  unfold validateField.
  destruct (firstFailing _ _ _ _); simpl;
    rewrite !FieldName_eqb_refl; reflexivity.
Qed.

End Writes.

Lemma validateField_marks
    (this : FormValidator) (field : FieldName) (w : World) :
  (In (js "error") (classList (getInput (snd (validateField this field w)) field))
   <-> fst (validateField this field w) = false)
  /\ (In (js "success")
         (classList (getInput (snd (validateField this field w)) field))
      <-> fst (validateField this field w) = true).
Proof.
  rewrite validateField_classList.
  destruct (fst (validateField this field w)).
  - rewrite !In_classList_add, !In_classList_remove. split.
    + split; [|discriminate]. intros [H|[_ H]]; [discriminate H | congruence].
    + split; auto.
  - rewrite !In_classList_remove, !In_classList_add. split.
    + split; [reflexivity|]. intros _. split; [auto | discriminate].
    + split; [|discriminate]. intros [_ H]; congruence.
Qed.

(** After [validateField] the control of the field carries the class
    [error] exactly when the call returned [false] and the class [success]
    exactly when it returned [true], whatever classes it carried before. *)
Theorem validateField_marks_control
    (this : FormValidator) (field : FieldName) (w : World) :
  (In (js "error") (classList (getInput (snd (validateField this field w)) field))
   <-> fst (validateField this field w) = false)
  /\ (In (js "success")
         (classList (getInput (snd (validateField this field w)) field))
      <-> fst (validateField this field w) = true).
Proof.
  exact (validateField_marks this field w).
Qed.

(** [validateField] writes only the two marker classes of its own control
    and the text of its own error span: no value of a control changes,
    [localStorage] is not written, the controls and spans of the other
    fields stay as they are, and any other class of the control is kept. *)
Theorem validateField_writes_only_markers
    (this : FormValidator) (field : FieldName) (w : World) :
  (forall g, value (getInput (snd (validateField this field w)) g)
             = value (getInput w g))
  /\ localStorage (snd (validateField this field w)) = localStorage w
  /\ (forall g, g <> field ->
        controls (snd (validateField this field w)) g = controls w g)
  /\ (forall t, t <> js "error" -> t <> js "success" ->
        (In t (classList (getInput (snd (validateField this field w)) field))
         <-> In t (classList (getInput w field)))).
Proof.
  split; [|split; [|split]].
  - intros g. apply validateField_value.
  - apply validateField_localStorage.
  - intros g Hne. unfold controls.
    destruct (validateField_other this field g w Hne) as [Hi He].
    rewrite Hi, He. reflexivity.
  - intros t He Hs. rewrite validateField_classList.
    destruct (fst (validateField this field w)).
    + rewrite In_classList_add, In_classList_remove. tauto.
    + rewrite In_classList_remove, In_classList_add. tauto.
Qed.

(** A control that carries another class keeps it through a failing and a
    passing validation, and the password control is not touched by the
    validation of the name. *)
Lemma validateField_writes_only_markers_witness :
  (In (js "wide")
      (classList (getInput
         (snd (validateField new Name
                 (setInput Name {| value := js "Al"; classList := [js "wide"] |}
                    (page [] [] [] [] None)))) Name))
   <-> In (js "wide") [js "wide"])
  /\ controls (snd (validateField new Name (page [] [] (js "x") [] None)))
              Password
     = controls (page [] [] (js "x") [] None) Password.
Proof.
  split.
  - apply (proj2 (proj2 (proj2
      (validateField_writes_only_markers new Name
         (setInput Name {| value := js "Al"; classList := [js "wide"] |}
            (page [] [] [] [] None))))));
      discriminate.
  - apply (proj1 (proj2 (proj2
      (validateField_writes_only_markers new Name
         (page [] [] (js "x") [] None))))).
    discriminate.
Defined.

(** Validating a field a second time, with nothing changed in between,
    returns the same boolean and leaves the whole page as the first call
    left it. *)
Theorem validateField_twice
    (this : FormValidator) (field : FieldName) (w : World) :
  fst (validateField this field (snd (validateField this field w)))
  = fst (validateField this field w)
  /\ (forall g,
        controls (snd (validateField this field
                         (snd (validateField this field w)))) g
        = controls (snd (validateField this field w)) g)
  /\ localStorage (snd (validateField this field
                          (snd (validateField this field w))))
     = localStorage (snd (validateField this field w)).
Proof.
  set (w1 := snd (validateField this field w)).
  assert (Hd : getFormData w1 = getFormData w)
    by apply validateField_getFormData.
  assert (Hl : localStorage w1 = localStorage w)
    by apply validateField_localStorage.
  assert (Hb : fst (validateField this field w1)
               = fst (validateField this field w))
    by (apply validateField_fst_reads; assumption).
  split; [exact Hb|]. split; [|apply validateField_localStorage].
  intros g. destruct (FieldName_eqb g field) eqn:Eg.
  - apply FieldName_eqb_eq in Eg; subst g. unfold controls. f_equal.
    + assert (Hv : value (getInput (snd (validateField this field w1)) field)
                   = value (getInput w1 field))
        by apply validateField_value.
      assert (Hc : classList (getInput (snd (validateField this field w1)) field)
                   = classList (getInput w1 field)).
      { rewrite validateField_classList, Hb.
        destruct (validateField_marks this field w) as [Herr Hsuc].
        fold w1 in Herr, Hsuc.
        destruct (fst (validateField this field w)).
        - rewrite (classList_remove_absent (js "error")).
          + apply classList_add_present. apply Hsuc; reflexivity.
          + intros H. apply Herr in H. discriminate.
        - rewrite (classList_add_present (js "error")).
          + apply classList_remove_absent.
            intros H. apply Hsuc in H. discriminate.
          + apply Herr; reflexivity. }
      destruct (getInput (snd (validateField this field w1)) field),
               (getInput w1 field); simpl in *; congruence.
    + assert (Ht : textContent (getError (snd (validateField this field w1)) field)
                   = textContent (getError w1 field)).
      { unfold w1 at 2. rewrite !validateField_textContent, Hd, Hl.
        reflexivity. }
      destruct (getError (snd (validateField this field w1)) field),
               (getError w1 field); simpl in *; congruence.
  - assert (Hne : g <> field).
    { intros ->. rewrite FieldName_eqb_refl in Eg; discriminate. }
    unfold controls.
    destruct (validateField_other this field g w1 Hne) as [Hi He].
    rewrite Hi, He. reflexivity.
Qed.

Lemma message_nonempty (field : FieldName) (rule : ValidationRule) :
  In rule (rules new field) -> message rule <> [].
Proof.
  destruct field; simpl; intros H;
    repeat (destruct H as [H|H]; [subst rule; discriminate|]);
    destruct H.
Qed.

(** With the catalog of the constructor, the error span of a field is empty
    after [validateField] exactly when the call returned [true]: every rule
    has a message that is not empty. *)
Theorem error_span_empty_iff_valid (field : FieldName) (w : World) :
  textContent (getError (snd (validateField new field w)) field) = []
  <-> fst (validateField new field w) = true.
Proof.
  rewrite validateField_textContent, validateField_fst.
  destruct (firstFailing _ _ _ _) as [rule|] eqn:E.
  - split; [|discriminate]. intros Hm. exfalso.
    apply firstFailing_Some in E. destruct E as (pre & post & Hr & _ & _).
    apply (message_nonempty field rule); [|exact Hm].
    rewrite Hr. apply in_or_app; right; left; reflexivity.
  - split; reflexivity.
Qed.

(** What the [input] listener leaves after a [blur]: when the user types
    into a control that was just validated, the error class and the error
    text are gone, the typed text is the value, and the class [success] is on
    the control exactly when the text before the typing was valid; the typed
    text is not looked at. *)
Theorem typing_after_blur
    (this : FormValidator) (field : FieldName) (v : jsstring) (w : World) :
  value (getInput (typeInto field v (onBlur this field w)) field) = v
  /\ ~ In (js "error")
         (classList (getInput (typeInto field v (onBlur this field w)) field))
  /\ textContent (getError (typeInto field v (onBlur this field w)) field) = []
  /\ (In (js "success")
         (classList (getInput (typeInto field v (onBlur this field w)) field))
      <-> fst (validateField this field w) = true).
Proof.
  unfold typeInto, onInput, clearError, setValue, onBlur; simpl.
  rewrite !FieldName_eqb_refl; simpl.
  split; [reflexivity|]. split; [|split; [reflexivity|]].
  - rewrite In_classList_remove. intros [_ H]; congruence.
  - rewrite In_classList_remove.
    rewrite <- (proj2 (validateField_marks this field w)).
    split; [tauto|]. intros H; split; [exact H | discriminate].
Qed.

(* ================================================================== *)
(** ** The registry: saving and looking up *)

Lemma strictEq_sym (a b : jsstring) : strictEq a b = strictEq b a.
Proof.
  destruct (strictEq a b) eqn:E; symmetry.
  - apply strictEq_eq in E; subst. apply strictEq_refl.
  - apply strictEq_false in E. apply strictEq_false. congruence.
Qed.

Lemma includes_app (l1 l2 : list jsstring) (x : jsstring) :
  includes (l1 ++ l2) x = includes l1 x || includes l2 x.
Proof. unfold includes. apply existsb_app. Qed.

Lemma isEmailRegistered_saveEmail (e e' : jsstring) (ls : LocalStorage) :
  isEmailRegistered (saveEmail e ls) e'
  = strictEq (toLowerCase e') (toLowerCase e) || isEmailRegistered ls e'.
Proof.
  unfold isEmailRegistered, saveEmail.
  destruct (includes (getRegisteredEmails ls) (toLowerCase e)) eqn:E; simpl.
  - destruct (strictEq (toLowerCase e') (toLowerCase e)) eqn:E'; simpl;
      [|reflexivity].
    apply strictEq_eq in E'. rewrite E'. exact E.
  - rewrite includes_app; simpl. rewrite orb_false_r.
    rewrite (strictEq_sym (toLowerCase e)). apply orb_comm.
Qed.

(** Looking up after saving: once [saveEmail] has run on [e], an address
    [e'] is registered exactly when it is [e] up to letter case or was
    registered before. *)
Theorem saveEmail_then_lookup (e e' : jsstring) (ls : LocalStorage) :
  isEmailRegistered (saveEmail e ls) e'
  = strictEq (toLowerCase e') (toLowerCase e) || isEmailRegistered ls e'.
Proof.
  exact (isEmailRegistered_saveEmail e e' ls).
Qed.

(** Saving an address that differs from an already saved one by letter case
    only leaves the registry as it is. *)
Theorem saveEmail_same_address_again (e e' : jsstring) (ls : LocalStorage) :
  toLowerCase e' = toLowerCase e ->
  saveEmail e' (saveEmail e ls) = saveEmail e ls.
Proof.
  intros Hlow.
  assert (H : isEmailRegistered (saveEmail e ls) e' = true).
  { rewrite isEmailRegistered_saveEmail, Hlow, strictEq_refl. reflexivity. }
  unfold isEmailRegistered in H.
  unfold saveEmail at 1. rewrite H. reflexivity.
Qed.

Lemma saveEmail_same_address_again_witness :
  saveEmail (js "x@Y.COM") (saveEmail (js "X@y.com") None)
  = saveEmail (js "X@y.com") None.
Proof.
  apply saveEmail_same_address_again. reflexivity.
Defined.

Lemma saveEmail_registryOk (e : jsstring) (ls : LocalStorage) :
  registryOk (getRegisteredEmails ls) ->
  registryOk (getRegisteredEmails (saveEmail e ls)).
Proof.
  intros [Hnd Hlow]. unfold saveEmail.
  destruct (includes (getRegisteredEmails ls) (toLowerCase e)) eqn:E; simpl.
  - split; assumption.
  - apply includes_not_In in E. split.
    + apply NoDup_snoc; assumption.
    + apply Forall_app; split; [assumption|].
      constructor; [|constructor].
      unfold isLowerCase. apply toLowerCase_idempotent.
Qed.

Lemma saveEmail_incl (e : jsstring) (ls : LocalStorage) :
  incl (getRegisteredEmails ls) (getRegisteredEmails (saveEmail e ls)).
Proof.
  unfold saveEmail.
  destruct (includes (getRegisteredEmails ls) (toLowerCase e)); simpl.
  - apply incl_refl.
  - apply incl_appl, incl_refl.
Qed.

(* ================================================================== *)
(** ** [trim] shortens *)

Lemma trimStart_length (s : jsstring) :
  List.length (trimStart s) <= List.length s.
Proof.
  induction s as [|c s IH]; simpl; [lia|].
  destruct (isWhiteSpace c); simpl; lia.
Qed.

Lemma trimStart_same_length (s : jsstring) :
  List.length (trimStart s) = List.length s -> trimStart s = s.
Proof.
  destruct s as [|c s]; simpl; [reflexivity|].
  destruct (isWhiteSpace c); [|reflexivity].
  pose proof (trimStart_length s). lia.
Qed.

Lemma trimEnd_length (s : jsstring) :
  List.length (trimEnd s) <= List.length s.
Proof.
  unfold trimEnd. rewrite length_rev.
  pose proof (trimStart_length (rev s)) as H. rewrite length_rev in H.
  exact H.
Qed.

Lemma trimEnd_same_length (s : jsstring) :
  List.length (trimEnd s) = List.length s -> trimEnd s = s.
Proof.
  unfold trimEnd. rewrite length_rev. intros H.
  rewrite trimStart_same_length; [apply rev_involutive|].
  rewrite length_rev. exact H.
Qed.

Lemma trim_length (s : jsstring) : List.length (trim s) <= List.length s.
Proof.
  unfold trim. pose proof (trimEnd_length (trimStart s)).
  pose proof (trimStart_length s). lia.
Qed.

Lemma trim_same_length (s : jsstring) :
  List.length (trim s) = List.length s -> trim s = s.
Proof.
  unfold trim. intros H.
  pose proof (trimEnd_length (trimStart s)) as H1.
  pose proof (trimStart_length s) as H2.
  assert (Hs : trimStart s = s) by (apply trimStart_same_length; lia).
  rewrite Hs in *. apply trimEnd_same_length. exact H.
Qed.

Lemma toLowerCase_length (s : jsstring) :
  List.length (toLowerCase s) = List.length s.
Proof. unfold toLowerCase. apply length_map. Qed.

Lemma toLowerCase_trim_neq (v : jsstring) :
  trim v <> v -> strictEq (toLowerCase (trim v)) (toLowerCase v) = false.
Proof.
  intros Hne. apply strictEq_false. intros E. apply Hne.
  apply trim_same_length.
  rewrite <- (toLowerCase_length (trim v)), E. apply toLowerCase_length.
Qed.

(* ================================================================== *)
(** ** Which values the catalog accepts *)

Lemma lang_cat_inv (r1 r2 : regex) (s : jsstring) :
  lang (Cat r1 r2) s ->
  exists s1 s2, s = s1 ++ s2 /\ lang r1 s1 /\ lang r2 s2.
Proof.
  intros H; inv H. eexists; eexists; split; [reflexivity|]; auto.
Qed.

Lemma lang_char_inv (a : ascii) (s : jsstring) :
  lang (Class (fun c => Ascii.eqb c a)) s -> s = [a].
Proof.
  intros H; inv H.
  match goal with E : Ascii.eqb _ _ = true |- _ => apply Ascii.eqb_eq in E end.
  subst; reflexivity.
Qed.

(** The words the email pattern matches: a local part, ["@"], a domain
    part, ["."] and a last part, the three parts not empty and free of white
    space and of ["@"]. *)
Lemma test_re_email (s : jsstring) :
  test re_email s = true
  <-> exists l d t,
        s = l ++ "@"%char :: d ++ "."%char :: t
        /\ (l <> [] /\ forallb notSpaceNorAt l = true)
        /\ (d <> [] /\ forallb notSpaceNorAt d = true)
        /\ (t <> [] /\ forallb notSpaceNorAt t = true).
Proof.
  unfold test, re_email; simpl anchoredStart; simpl anchoredEnd; simpl body;
    cbv iota.
  rewrite matches_lang, lang_eps_l, lang_eps_r. split.
  - intros H.
    apply lang_cat_inv in H. destruct H as (l & s1 & -> & Hl & H).
    apply lang_cat_inv in H. destruct H as (a & s2 & -> & Ha & H).
    apply lang_cat_inv in H. destruct H as (d & s3 & -> & Hd & H).
    apply lang_cat_inv in H. destruct H as (o & t & -> & Ho & Ht).
    apply lang_char_inv in Ha, Ho. subst a o.
    apply lang_plus_class in Hl, Hd, Ht.
    exists l, d, t. simpl. auto.
  - intros (l & d & t & -> & Hl & Hd & Ht).
    apply lang_plus_class in Hl, Hd, Ht.
    constructor; [exact Hl|].
    change ("@"%char :: d ++ "."%char :: t)
      with (["@"%char] ++ d ++ ["."%char] ++ t).
    constructor; [constructor; reflexivity|].
    constructor; [exact Hd|].
    constructor; [constructor; reflexivity | exact Ht].
Qed.

Lemma test_unanchored_class_eq (p : ascii -> bool) (s : jsstring) :
  test (Pattern false (Class p) false) s = existsb p s.
Proof.
  pose proof (test_unanchored_class p s) as H.
  destruct (test _ s), (existsb p s); try reflexivity.
  - symmetry; apply H; reflexivity.
  - apply H; reflexivity.
Qed.

Section Accepts.

Variable w : World.

Lemma name_valid :
  evaluateField new Name w = Valid
  <-> 2 <= List.length (trim (value (getInput w Name)))
      /\ forallb letterOrWhiteSpace (trim (value (getInput w Name))) = true.
Proof.
  rewrite evaluateField_name; cbv zeta.
  set (t := trim (value (getInput w Name))).
  assert (Ht : test re_name t = true
               <-> t <> [] /\ forallb letterOrWhiteSpace t = true)
    by exact (test_anchored_plus_class letterOrWhiteSpace t).
  destruct (Nat.ltb_spec 0 (List.length t));
    [|split; [discriminate | lia]].
  destruct (Nat.leb_spec 2 (List.length t));
    [|split; [discriminate | lia]].
  destruct (test re_name t).
  - split; [|reflexivity]. intros _. split; [assumption|].
    apply Ht; reflexivity.
  - split; [discriminate|]. intros [_ Hall].
    assert (Habs : false = true); [|discriminate].
    apply Ht. split; [|exact Hall].
    intros E; rewrite E in *; simpl in *; lia.
Qed.

Lemma email_valid :
  evaluateField new Email w = Valid
  <-> (exists l d t,
         trim (value (getInput w Email)) = l ++ "@"%char :: d ++ "."%char :: t
         /\ (l <> [] /\ forallb notSpaceNorAt l = true)
         /\ (d <> [] /\ forallb notSpaceNorAt d = true)
         /\ (t <> [] /\ forallb notSpaceNorAt t = true))
      /\ isEmailRegistered (localStorage w) (trim (value (getInput w Email)))
         = false.
Proof.
  rewrite evaluateField_email; cbv zeta.
  set (t := trim (value (getInput w Email))).
  pose proof (test_re_email t) as Ht.
  destruct (test re_email t).
  - assert (Hshape := proj1 Ht eq_refl).
    assert (H0 : (0 <? List.length t) = true).
    { destruct Hshape as (l & d & t' & E & _). rewrite E.
      rewrite length_app. simpl. apply Nat.ltb_lt. lia. }
    rewrite H0.
    destruct (isEmailRegistered (localStorage w) t).
    + split; [discriminate|]. intros [_ H]; discriminate.
    + split; auto.
  - assert (Hno : ~ exists l d t',
               t = l ++ "@"%char :: d ++ "."%char :: t'
               /\ (l <> [] /\ forallb notSpaceNorAt l = true)
               /\ (d <> [] /\ forallb notSpaceNorAt d = true)
               /\ (t' <> [] /\ forallb notSpaceNorAt t' = true)).
    { intros H. apply Ht in H. discriminate. }
    destruct (0 <? List.length t); split;
      try discriminate; intros [H _]; contradiction.
Qed.

Lemma password_valid :
  evaluateField new Password w = Valid
  <-> 8 <= List.length (value (getInput w Password))
      /\ existsb (range "A" "Z") (value (getInput w Password)) = true
      /\ existsb (range "a" "z") (value (getInput w Password)) = true
      /\ existsb (range "0" "9") (value (getInput w Password)) = true
      /\ existsb (oneOf specialChars) (value (getInput w Password)) = true.
Proof.
  rewrite evaluateField_password; cbv zeta.
  set (v := value (getInput w Password)).
  unfold re_upper, re_lower, re_digit, re_special.
  rewrite !test_unanchored_class_eq.
  destruct (Nat.ltb_spec 0 (List.length v));
    [|split; [discriminate | lia]].
  destruct (Nat.leb_spec 8 (List.length v));
    [|split; [discriminate | lia]].
  destruct (existsb (range "A" "Z") v);
    [|split; [discriminate | intros (_ & H' & _); discriminate]].
  destruct (existsb (range "a" "z") v);
    [|split; [discriminate | intros (_ & _ & H' & _); discriminate]].
  destruct (existsb (range "0" "9") v);
    [|split; [discriminate | intros (_ & _ & _ & H' & _); discriminate]].
  destruct (existsb (oneOf specialChars) v);
    [|split; [discriminate | intros (_ & _ & _ & _ & H'); discriminate]].
  split; auto.
Qed.

Lemma confirmPassword_valid :
  evaluateField new ConfirmPassword w = Valid
  <-> value (getInput w ConfirmPassword) <> []
      /\ value (getInput w ConfirmPassword) = value (getInput w Password).
Proof.
  rewrite evaluateField_confirmPassword; cbv zeta.
  destruct (value (getInput w ConfirmPassword)) as [|c v] eqn:E.
  - split; [discriminate|]. intros [H _]; congruence.
  - change (0 <? List.length (c :: v)) with true; cbv iota.
    destruct (strictEq (c :: v) (value (getInput w Password))) eqn:Es.
    + apply strictEq_eq in Es. split; [|reflexivity].
      intros _; split; [discriminate | exact Es].
    + apply strictEq_false in Es. split; [discriminate|].
      intros [_ H]; contradiction.
Qed.

Lemma validateAll_fst_iff :
  fst (validateAll new w) = true
  <-> forall field, evaluateField new field w = Valid.
Proof.
  unfold validateAll.
  rewrite (every_validateField_fst new (fields new) w w eq_refl eq_refl).
  rewrite forallb_forall. split.
  - intros H field. apply evaluateField_Valid, H.
    destruct field; simpl; auto.
  - intros H field _. apply evaluateField_Valid, H.
Qed.

End Accepts.

(** The email field is [Valid] exactly when the trimmed value is a local
    part, ["@"], a domain part, ["."] and a last part, the three parts not
    empty and without white space or ["@"] (so the value has one ["@"] and a
    dot after it, with something on both sides of each), and its lower-case
    form is not in the registry. *)
Theorem email_valid_iff (w : World) :
  evaluateField new Email w = Valid
  <-> (exists l d t,
         trim (value (getInput w Email)) = l ++ "@"%char :: d ++ "."%char :: t
         /\ (l <> [] /\ forallb notSpaceNorAt l = true)
         /\ (d <> [] /\ forallb notSpaceNorAt d = true)
         /\ (t <> [] /\ forallb notSpaceNorAt t = true))
      /\ isEmailRegistered (localStorage w) (trim (value (getInput w Email)))
         = false.
Proof.
  exact (email_valid w).
Qed.

(** The password field is [Valid] exactly when the value, untrimmed, has at
    least eight code units and among them a letter A-Z, a letter a-z, a
    digit and one of the twenty listed special characters. *)
Theorem password_valid_iff (w : World) :
  evaluateField new Password w = Valid
  <-> 8 <= List.length (value (getInput w Password))
      /\ existsb (range "A" "Z") (value (getInput w Password)) = true
      /\ existsb (range "a" "z") (value (getInput w Password)) = true
      /\ existsb (range "0" "9") (value (getInput w Password)) = true
      /\ existsb (oneOf specialChars) (value (getInput w Password)) = true.
Proof.
  exact (password_valid w).
Qed.

Lemma form_accepted (w : World) :
  fst (validateAll new w) = true
  <-> (2 <= List.length (trim (value (getInput w Name)))
       /\ forallb letterOrWhiteSpace (trim (value (getInput w Name))) = true)
      /\ ((exists l d t,
             trim (value (getInput w Email))
             = l ++ "@"%char :: d ++ "."%char :: t
             /\ (l <> [] /\ forallb notSpaceNorAt l = true)
             /\ (d <> [] /\ forallb notSpaceNorAt d = true)
             /\ (t <> [] /\ forallb notSpaceNorAt t = true))
          /\ isEmailRegistered (localStorage w)
                (trim (value (getInput w Email))) = false)
      /\ (8 <= List.length (value (getInput w Password))
          /\ existsb (range "A" "Z") (value (getInput w Password)) = true
          /\ existsb (range "a" "z") (value (getInput w Password)) = true
          /\ existsb (range "0" "9") (value (getInput w Password)) = true
          /\ existsb (oneOf specialChars) (value (getInput w Password)) = true)
      /\ value (getInput w ConfirmPassword) = value (getInput w Password).
Proof.
  rewrite validateAll_fst_iff. split.
  - intros H. split; [apply name_valid, H|].
    split; [apply email_valid, H|]. split; [apply password_valid, H|].
    apply (confirmPassword_valid w), H.
  - intros (Hn & He & Hp & Hc) field. destruct field.
    + apply name_valid, Hn.
    + apply email_valid, He.
    + apply password_valid, Hp.
    + apply confirmPassword_valid. split; [|exact Hc].
      destruct Hp as [Hlen _].
      rewrite Hc. intros E; rewrite E in Hlen; simpl in Hlen; lia.
Qed.

(** [validateAll] returns [true] exactly for the forms that meet all four
    conditions at once: a trimmed name of at least two code units, all
    letters or white space; a trimmed email of the accepted shape whose
    lower-case form is not registered; a password of at least eight code
    units with an upper-case letter, a lower-case letter, a digit and a
    special character; and a confirmation equal to the password. *)
Theorem form_accepted_iff (w : World) :
  fst (validateAll new w) = true
  <-> (2 <= List.length (trim (value (getInput w Name)))
       /\ forallb letterOrWhiteSpace (trim (value (getInput w Name))) = true)
      /\ ((exists l d t,
             trim (value (getInput w Email))
             = l ++ "@"%char :: d ++ "."%char :: t
             /\ (l <> [] /\ forallb notSpaceNorAt l = true)
             /\ (d <> [] /\ forallb notSpaceNorAt d = true)
             /\ (t <> [] /\ forallb notSpaceNorAt t = true))
          /\ isEmailRegistered (localStorage w)
                (trim (value (getInput w Email))) = false)
      /\ (8 <= List.length (value (getInput w Password))
          /\ existsb (range "A" "Z") (value (getInput w Password)) = true
          /\ existsb (range "a" "z") (value (getInput w Password)) = true
          /\ existsb (range "0" "9") (value (getInput w Password)) = true
          /\ existsb (oneOf specialChars) (value (getInput w Password)) = true)
      /\ value (getInput w ConfirmPassword) = value (getInput w Password).
Proof.
  exact (form_accepted w).
Qed.

(* ================================================================== *)
(** ** The submit path *)

Section Submit.

Variable this : FormValidator.

Lemma every_validateField_value (arr : list FieldName) :
  forall w g,
    value (getInput (snd (every (fun f => validateField this f) arr w)) g)
    = value (getInput w g).
Proof.
  induction arr as [|f arr IH]; intros w g; simpl; [reflexivity|].
  pose proof (validateField_value this f g w) as Hv.
  destruct (validateField this f w) as [ok w1]; simpl in Hv.
  destruct ok; simpl; [|exact Hv].
  rewrite IH. exact Hv.
Qed.

Lemma every_validateField_localStorage (arr : list FieldName) :
  forall w,
    localStorage (snd (every (fun f => validateField this f) arr w))
    = localStorage w.
Proof.
  induction arr as [|f arr IH]; intros w; simpl; [reflexivity|].
  pose proof (validateField_localStorage this f w) as Hl.
  destruct (validateField this f w) as [ok w1]; simpl in Hl.
  destruct ok; simpl; [|exact Hl].
  rewrite IH. exact Hl.
Qed.

Lemma handleSubmit_false (e : Event) (b : Browser) :
  fst (validateAll this (world b)) = false ->
  handleSubmit this e b
  = ({| defaultPrevented := true |},
     setWorld (snd (validateAll this (world b)))
       (onSuccessClassList (classList_remove (js "show")) b)).
Proof.
  intros H. unfold handleSubmit.
  change (world (onSuccessClassList (classList_remove (js "show")) b))
    with (world b).
  destruct (validateAll this (world b)) as [ok w1]; simpl in H; subst ok.
  reflexivity.
Qed.

Lemma handleSubmit_true (e : Event) (b : Browser) :
  fst (validateAll this (world b)) = true ->
  handleSubmit this e b
  = ({| defaultPrevented := true |},
     let w1 := snd (validateAll this (world b)) in
     let data := getFormData w1 in
     {| world := setLocalStorage (saveEmail (email data) (localStorage w1)) w1;
        defaultValue := defaultValue b;
        successMsg :=
          {| div_textContent := welcome (name data);
             div_classList :=
               classList_add (js "show")
                 (classList_remove (js "show")
                    (div_classList (successMsg b))) |};
        timeouts := timeouts b ++ [3000];
        console :=
          console b ++
          [ {| log_name := name data;
               log_email := email data;
               log_passwordLength := List.length (password data) |} ] |}).
Proof.
  intros H. unfold handleSubmit.
  change (world (onSuccessClassList (classList_remove (js "show")) b))
    with (world b).
  destruct (validateAll this (world b)) as [ok w1]; simpl in H; subst ok.
  reflexivity.
Qed.

(** The step of the [forEach] in [reset]. *)
Let resetField (w : World) (field : FieldName) : World :=
  let w' := onClassList field
              (fun l => classList_remove (js "error")
                          (classList_remove (js "success") l)) w in
  setTextContent field [] w'.

Lemma resetField_step (w : World) (g f : FieldName) :
  value (getInput (resetField w g) f) = value (getInput w f)
  /\ localStorage (resetField w g) = localStorage w
  /\ (forall t,
        In t (classList (getInput (resetField w g) f))
        <-> In t (classList (getInput w f))
            /\ (g = f -> t <> js "error" /\ t <> js "success"))
  /\ textContent (getError (resetField w g) f)
     = if FieldName_eqb f g then [] else textContent (getError w f).
Proof.
  unfold resetField; simpl.
  destruct (FieldName_eqb f g) eqn:E; simpl.
  - apply FieldName_eqb_eq in E; subst g.
    repeat split; try reflexivity.
    + rewrite !In_classList_remove in H. tauto.
    + rewrite !In_classList_remove in H. tauto.
    + rewrite !In_classList_remove in H. tauto.
    + intros [Hin Hne]. rewrite !In_classList_remove.
      destruct (Hne eq_refl). tauto.
  - assert (Hne : g <> f).
    { intros ->. rewrite FieldName_eqb_refl in E; discriminate. }
    repeat split; try reflexivity; tauto.
Qed.

Lemma fold_resetField (arr : list FieldName) :
  forall w f,
    value (getInput (fold_left resetField arr w) f) = value (getInput w f)
    /\ localStorage (fold_left resetField arr w) = localStorage w
    /\ (forall t,
          In t (classList (getInput (fold_left resetField arr w) f))
          <-> In t (classList (getInput w f))
              /\ (In f arr -> t <> js "error" /\ t <> js "success"))
    /\ textContent (getError (fold_left resetField arr w) f)
       = if existsb (FieldName_eqb f) arr then []
         else textContent (getError w f).
Proof.
  induction arr as [|g arr IH]; intros w f.
  - simpl. repeat split; tauto.
  - change (fold_left resetField (g :: arr) w)
      with (fold_left resetField arr (resetField w g)).
    destruct (IH (resetField w g) f) as (Hv & Hl & Hc & Ht).
    destruct (resetField_step w g f) as (Sv & Sl & Sc & St).
    split; [congruence|]. split; [congruence|]. split.
    + intros t. rewrite Hc, Sc. simpl.
      split.
      * intros [[Hin Hg] Harr]. split; [exact Hin|].
        intros [E|Hin']; [apply Hg; exact E | apply Harr; exact Hin'].
      * intros [Hin H]. split; [split; [exact Hin|]|]; intros; apply H; auto.
    + rewrite Ht, St. simpl.
      destruct (FieldName_eqb f g), (existsb (FieldName_eqb f) arr);
        reflexivity.
Qed.

Lemma reset_world (b : Browser) :
  world (reset this b)
  = fold_left resetField (fields this) (form_reset (defaultValue b) (world b)).
Proof. reflexivity. Qed.

End Submit.

Lemma validateAll_true_controls (w : World) (field : FieldName) :
  fst (validateAll new w) = true ->
  controls (snd (validateAll new w)) field
  = controls (snd (validateField new field w)) field.
Proof.
  intros H. unfold validateAll in *.
  rewrite (every_validateField_controls new (fields new) NoDup_fields_new
             w w field eq_refl eq_refl).
  rewrite (every_validateField_fst new (fields new) w w eq_refl eq_refl) in H.
  rewrite forallb_forall in H.
  replace (existsb (FieldName_eqb field) (fields new)) with true
    by (destruct field; reflexivity).
  replace (forallb (fun g => fst (validateField new g w))
                   (fieldsBefore field (fields new))) with true;
    [reflexivity|].
  symmetry. apply forallb_forall. intros g _. apply H.
  destruct g; simpl; auto.
Qed.

(** A submission that fails validation changes nothing beyond the page
    marks: [preventDefault] is called, the banner is hidden and keeps its
    text, [localStorage] is not written, nothing is logged and no reset is
    scheduled. *)
Theorem handleSubmit_rejected
    (this : FormValidator) (e : Event) (b : Browser) :
  fst (validateAll this (world b)) = false ->
  defaultPrevented (fst (handleSubmit this e b)) = true
  /\ ~ In (js "show") (div_classList (successMsg (snd (handleSubmit this e b))))
  /\ div_textContent (successMsg (snd (handleSubmit this e b)))
     = div_textContent (successMsg b)
  /\ localStorage (world (snd (handleSubmit this e b)))
     = localStorage (world b)
  /\ (forall g, value (getInput (world (snd (handleSubmit this e b))) g)
                = value (getInput (world b) g))
  /\ timeouts (snd (handleSubmit this e b)) = timeouts b
  /\ console (snd (handleSubmit this e b)) = console b.
Proof.
  intros H. rewrite (handleSubmit_false this e b H); simpl.
  split; [reflexivity|]. split.
  - rewrite In_classList_remove. intros [_ Hne]; congruence.
  - split; [reflexivity|]. split.
    + apply every_validateField_localStorage.
    + split; [|split; reflexivity].
      intros g. apply every_validateField_value.
Qed.

Lemma handleSubmit_rejected_witness :
  timeouts (snd (handleSubmit new {| defaultPrevented := false |}
                   (browser (page (js "Al") (js "a@b") [] [] None)))) = []
  /\ localStorage (world (snd (handleSubmit new {| defaultPrevented := false |}
                   (browser (page (js "Al") (js "a@b") [] [] None))))) = None.
Proof.
  destruct (handleSubmit_rejected new {| defaultPrevented := false |}
              (browser (page (js "Al") (js "a@b") [] [] None)) eq_refl)
    as (_ & _ & _ & Hl & _ & Ht & _).
  split; [exact Ht | exact Hl].
Defined.

(** A submission that passes validation shows the banner with the welcome
    text built from the untrimmed name, registers the email, logs the name,
    the email and the length of the password, schedules one reset after 3000
    ms behind the pending ones, keeps every value, and leaves each of the
    four controls marked [success], not [error], with an empty error
    span. *)
Theorem handleSubmit_accepted (e : Event) (b : Browser) :
  fst (validateAll new (world b)) = true ->
  defaultPrevented (fst (handleSubmit new e b)) = true
  /\ In (js "show") (div_classList (successMsg (snd (handleSubmit new e b))))
  /\ div_textContent (successMsg (snd (handleSubmit new e b)))
     = js "Registration successful! Welcome, "
       ++ value (getInput (world b) Name) ++ js "!"
  /\ isEmailRegistered (localStorage (world (snd (handleSubmit new e b))))
       (value (getInput (world b) Email)) = true
  /\ console (snd (handleSubmit new e b))
     = console b ++
       [ {| log_name := value (getInput (world b) Name);
            log_email := value (getInput (world b) Email);
            log_passwordLength :=
              List.length (value (getInput (world b) Password)) |} ]
  /\ timeouts (snd (handleSubmit new e b)) = timeouts b ++ [3000]
  /\ (forall g, value (getInput (world (snd (handleSubmit new e b))) g)
                = value (getInput (world b) g))
  /\ (forall g,
        In (js "success")
           (classList (getInput (world (snd (handleSubmit new e b))) g))
        /\ ~ In (js "error")
               (classList (getInput (world (snd (handleSubmit new e b))) g))
        /\ textContent (getError (world (snd (handleSubmit new e b))) g) = []).
Proof.
  intros H. rewrite (handleSubmit_true new e b H); cbv zeta; simpl.
  assert (Hval : forall g,
             value (getInput (snd (validateAll new (world b))) g)
             = value (getInput (world b) g))
    by (intros g; apply every_validateField_value).
  rewrite !Hval.
  split; [reflexivity|]. split; [apply In_classList_add; auto|].
  split; [reflexivity|]. split.
  - rewrite isEmailRegistered_saveEmail, strictEq_refl. reflexivity.
  - split; [reflexivity|]. split; [reflexivity|]. split; [exact Hval|].
    intros g.
    pose proof (validateAll_true_controls (world b) g H) as Hc.
    unfold controls in Hc. inversion Hc as [[Hi He]]. rewrite Hi, He.
    assert (Hg : fst (validateField new g (world b)) = true).
    { apply evaluateField_Valid. apply validateAll_fst_iff. exact H. }
    destruct (validateField_marks new g (world b)) as [Herr Hsuc].
    split; [apply Hsuc; exact Hg|]. split.
    + intros Hin. apply Herr in Hin. congruence.
    + rewrite validateField_textContent.
      rewrite validateField_fst in Hg.
      destruct (firstFailing _ _ _ _); [discriminate | reflexivity].
Qed.

Lemma handleSubmit_accepted_witness :
  timeouts (snd (handleSubmit new {| defaultPrevented := false |}
                   (browser (page (js "Al") (js "A@b.com") (js "Password1!")
                                  (js "Password1!") None)))) = [3000]
  /\ isEmailRegistered
       (localStorage (world (snd (handleSubmit new
          {| defaultPrevented := false |}
          (browser (page (js "Al") (js "A@b.com") (js "Password1!")
                         (js "Password1!") None))))))
       (js "A@b.com") = true.
Proof.
  destruct (handleSubmit_accepted {| defaultPrevented := false |}
              (browser (page (js "Al") (js "A@b.com") (js "Password1!")
                             (js "Password1!") None)) eq_refl)
    as (_ & _ & _ & Hr & _ & Ht & _).
  split; [exact Ht | exact Hr].
Defined.

Lemma handleSubmit_registry
    (this : FormValidator) (e : Event) (b : Browser) :
  registryOk (getRegisteredEmails (localStorage (world b))) ->
  registryOk (getRegisteredEmails
                (localStorage (world (snd (handleSubmit this e b)))))
  /\ incl (getRegisteredEmails (localStorage (world b)))
          (getRegisteredEmails
             (localStorage (world (snd (handleSubmit this e b))))).
Proof.
  intros Hok.
  destruct (fst (validateAll this (world b))) eqn:H.
  - rewrite (handleSubmit_true this e b H); cbv zeta; simpl.
    unfold validateAll. rewrite every_validateField_localStorage.
    split; [apply saveEmail_registryOk; exact Hok | apply saveEmail_incl].
  - rewrite (handleSubmit_false this e b H); simpl.
    unfold validateAll. rewrite every_validateField_localStorage.
    split; [exact Hok | apply incl_refl].
Qed.

Lemma handleSubmit_true_world (e : Event) (b : Browser) :
  fst (validateAll new (world b)) = true ->
  (forall g, value (getInput (world (snd (handleSubmit new e b))) g)
             = value (getInput (world b) g))
  /\ localStorage (world (snd (handleSubmit new e b)))
     = saveEmail (value (getInput (world b) Email)) (localStorage (world b)).
Proof.
  intros H. rewrite (handleSubmit_true new e b H); cbv zeta; simpl.
  unfold validateAll.
  rewrite every_validateField_localStorage, !every_validateField_value.
  split; [|reflexivity].
  intros g. apply every_validateField_value.
Qed.

(** After an accepted submission whose email value has no white space at
    its ends, the same form is rejected: the email field is [Invalid] with
    "This email is already registered". *)
Theorem resubmission_is_rejected (e : Event) (b : Browser) :
  fst (validateAll new (world b)) = true ->
  trim (value (getInput (world b) Email)) = value (getInput (world b) Email) ->
  evaluateField new Email (world (snd (handleSubmit new e b)))
  = Invalid (js "This email is already registered")
  /\ fst (validateAll new (world (snd (handleSubmit new e b)))) = false.
Proof.
  intros H Htrim.
  destruct (handleSubmit_true_world e b H) as [Hval Hls].
  assert (Hinv : evaluateField new Email (world (snd (handleSubmit new e b)))
                 = Invalid (js "This email is already registered")).
  { assert (He : evaluateField new Email (world b) = Valid)
      by (apply validateAll_fst_iff; exact H).
    rewrite evaluateField_email in He. cbv zeta in He.
    rewrite evaluateField_email; cbv zeta. rewrite Hval, Hls.
    rewrite isEmailRegistered_saveEmail, Htrim, strictEq_refl; simpl.
    rewrite Htrim in He.
    destruct (0 <? _); [|discriminate He].
    destruct (test re_email _); [reflexivity | discriminate He]. }
  split; [exact Hinv|].
  destruct (fst (validateAll new (world (snd (handleSubmit new e b))))) eqn:E;
    [|reflexivity].
  rewrite (proj1 (validateAll_fst_iff _) E Email) in Hinv. discriminate.
Qed.

Lemma resubmission_is_rejected_witness :
  evaluateField new Email
    (world (snd (handleSubmit new {| defaultPrevented := false |}
       (browser (page (js "Al") (js "A@b.com") (js "Password1!")
                      (js "Password1!") None)))))
  = Invalid (js "This email is already registered")
  /\ fst (validateAll new
       (world (snd (handleSubmit new {| defaultPrevented := false |}
          (browser (page (js "Al") (js "A@b.com") (js "Password1!")
                         (js "Password1!") None)))))) = false.
Proof.
  apply resubmission_is_rejected; reflexivity.
Defined.

(** The registry is written with the untrimmed email but read with the
    trimmed one: after an accepted submission whose email value has white
    space at an end, the same form is accepted again. *)
Theorem padded_email_is_accepted_again (e : Event) (b : Browser) :
  fst (validateAll new (world b)) = true ->
  trim (value (getInput (world b) Email)) <> value (getInput (world b) Email) ->
  fst (validateAll new (world (snd (handleSubmit new e b)))) = true.
Proof.
  intros H Hpad.
  destruct (handleSubmit_true_world e b H) as [Hval Hls].
  apply form_accepted. apply form_accepted in H.
  rewrite !Hval, Hls.
  destruct H as (Hn & (Hshape & Hreg) & Hp & Hc).
  split; [exact Hn|]. split; [|split; assumption].
  split; [exact Hshape|].
  rewrite isEmailRegistered_saveEmail, Hreg.
  rewrite (toLowerCase_trim_neq _ Hpad). reflexivity.
Qed.

(** The address "a@b.com" followed by a space. *)
Lemma padded_email_is_accepted_again_witness :
  fst (validateAll new
    (world (snd (handleSubmit new {| defaultPrevented := false |}
       (browser (page (js "Al") (js "a@b.com ") (js "Password1!")
                      (js "Password1!") None)))))) = true.
Proof.
  apply padded_email_is_accepted_again.
  - reflexivity.
  - vm_compute. discriminate.
Defined.

(** [reset] puts the default value back into every control, removes the
    classes [success] and [error] from the controls of the listed fields and
    empties their error spans, keeps every other class, hides the banner, and
    leaves [localStorage] and the pending timeouts alone. *)
Theorem reset_cleans_the_form (this : FormValidator) (b : Browser) :
  (forall g, value (getInput (world (reset this b)) g) = defaultValue b g)
  /\ (forall g t,
        In t (classList (getInput (world (reset this b)) g))
        <-> In t (classList (getInput (world b) g))
            /\ (In g (fields this) -> t <> js "error" /\ t <> js "success"))
  /\ (forall g, In g (fields this) ->
        textContent (getError (world (reset this b)) g) = [])
  /\ ~ In (js "show") (div_classList (successMsg (reset this b)))
  /\ localStorage (world (reset this b)) = localStorage (world b)
  /\ timeouts (reset this b) = timeouts b.
Proof.
  rewrite reset_world.
  split; [|split; [|split; [|split; [|split]]]].
  - intros g.
    destruct (fold_resetField (fields this)
                (form_reset (defaultValue b) (world b)) g) as (Hv & _).
    rewrite Hv. reflexivity.
  - intros g t.
    destruct (fold_resetField (fields this)
                (form_reset (defaultValue b) (world b)) g) as (_ & _ & Hc & _).
    rewrite Hc. reflexivity.
  - intros g Hin.
    destruct (fold_resetField (fields this)
                (form_reset (defaultValue b) (world b)) g) as (_ & _ & _ & Ht).
    rewrite Ht.
    replace (existsb (FieldName_eqb g) (fields this)) with true; [reflexivity|].
    symmetry. apply existsb_exists. exists g; split; [exact Hin|].
    apply FieldName_eqb_refl.
  - unfold reset; simpl. rewrite In_classList_remove. intros [_ H]; congruence.
  - destruct (fold_resetField (fields this)
                (form_reset (defaultValue b) (world b)) Name) as (_ & Hl & _).
    rewrite Hl. reflexivity.
  - reflexivity.
Qed.

(** The form right after an accepted submission, reset. *)
Lemma reset_cleans_the_form_witness :
  textContent (getError
    (world (reset new (browser (page (js "A") [] [] [] None)))) Email) = []
  /\ (In (js "success")
        (classList (getInput
           (world (reset new
              (browser (snd (validateField new Name
                              (page (js "Al") [] [] [] None))))))
           Name))
      <-> In (js "success") [js "success"]
          /\ (In Name (fields new) ->
              js "success" <> js "error" /\ js "success" <> js "success")).
Proof.
  split.
  - apply (proj1 (proj2 (proj2 (reset_cleans_the_form new
             (browser (page (js "A") [] [] [] None))))) Email).
    simpl; auto.
  - apply (proj1 (proj2 (reset_cleans_the_form new
             (browser (snd (validateField new Name
                              (page (js "Al") [] [] [] None)))))) Name).
Defined.

(** A pending reset is never cancelled.  When a submission is accepted
    while an earlier reset is still pending, that earlier reset fires first:
    it hides the banner of the new submission, puts the default values back
    and clears the marks, while the reset of the new submission stays
    pending and the email stays registered. *)
Theorem earlier_reset_wipes_later_submission
    (e : Event) (b : Browser) (t : nat) (ts : list nat) :
  timeouts b = t :: ts ->
  fst (validateAll new (world b)) = true ->
  ~ In (js "show")
      (div_classList (successMsg (runTimeout new (snd (handleSubmit new e b)))))
  /\ (forall g,
        value (getInput (world (runTimeout new (snd (handleSubmit new e b)))) g)
        = defaultValue b g
        /\ ~ In (js "success")
             (classList (getInput
                (world (runTimeout new (snd (handleSubmit new e b)))) g)))
  /\ timeouts (runTimeout new (snd (handleSubmit new e b))) = ts ++ [3000]
  /\ isEmailRegistered
       (localStorage (world (runTimeout new (snd (handleSubmit new e b)))))
       (value (getInput (world b) Email)) = true.
Proof.
  intros Ht H.
  assert (Hrun : runTimeout new (snd (handleSubmit new e b))
                 = reset new (setTimeouts (ts ++ [3000])
                                (snd (handleSubmit new e b)))).
  { unfold runTimeout.
    rewrite (handleSubmit_true new e b H); cbv zeta; simpl.
    rewrite Ht; reflexivity. }
  rewrite Hrun.
  set (b1 := setTimeouts (ts ++ [3000]) (snd (handleSubmit new e b))).
  assert (Hdef : defaultValue b1 = defaultValue b).
  { unfold b1. rewrite (handleSubmit_true new e b H); reflexivity. }
  assert (Hls : localStorage (world b1)
                = saveEmail (value (getInput (world b) Email))
                            (localStorage (world b))).
  { unfold b1. simpl. apply (handleSubmit_true_world e b H). }
  split; [|split; [|split]].
  - unfold reset; simpl. rewrite In_classList_remove. intros [_ Hne]; congruence.
  - intros g. rewrite reset_world.
    destruct (fold_resetField (fields new)
                (form_reset (defaultValue b1) (world b1)) g)
      as (Hv & _ & Hc & _).
    split.
    + rewrite Hv.
      change (value (getInput (form_reset (defaultValue b1) (world b1)) g))
        with (defaultValue b1 g).
      rewrite Hdef. reflexivity.
    + rewrite Hc. intros [_ Hne].
      destruct Hne as [_ Hne]; [destruct g; simpl; auto | congruence].
  - reflexivity.
  - rewrite reset_world.
    destruct (fold_resetField (fields new)
                (form_reset (defaultValue b1) (world b1)) Name)
      as (_ & Hl & _).
    rewrite Hl.
    change (localStorage (form_reset (defaultValue b1) (world b1)))
      with (localStorage (world b1)).
    rewrite Hls.
    rewrite isEmailRegistered_saveEmail, strictEq_refl. reflexivity.
Qed.

Lemma earlier_reset_wipes_later_submission_witness :
  timeouts
    (runTimeout new
       (snd (handleSubmit new {| defaultPrevented := false |}
          (setTimeouts [3000]
             (browser (page (js "Al") (js "A@b.com") (js "Password1!")
                            (js "Password1!") None))))))
  = [3000].
Proof.
  apply (proj1 (proj2 (proj2
    (earlier_reset_wipes_later_submission {| defaultPrevented := false |}
       (setTimeouts [3000]
          (browser (page (js "Al") (js "A@b.com") (js "Password1!")
                         (js "Password1!") None)))
       3000 [] eq_refl eq_refl)))).
Defined.

(* ================================================================== *)
(** ** The variant without the registry *)

(** The catalog of the variant without the third email rule gives every
    field the outcome the full catalog gives it on an empty registry, and
    its outcomes do not depend on [localStorage]; on a page with a registry
    the two catalogs differ only where the full one answers "This email is
    already registered". *)
Theorem plain_variant_is_empty_registry (field : FieldName) (w : World) :
  evaluateField new_plain field w
  = evaluateField new field (setLocalStorage None w)
  /\ (forall ls,
        evaluateField new_plain field (setLocalStorage ls w)
        = evaluateField new_plain field w)
  /\ (evaluateField new field w = evaluateField new_plain field w
      \/ (field = Email
          /\ evaluateField new_plain Email w = Valid
          /\ evaluateField new Email w
             = Invalid (js "This email is already registered"))).
Proof.
  assert (Hplain : evaluateField new_plain Email w
                   = let v := value (getInput w Email) in
                     if 0 <? List.length (trim v) then
                       if test re_email (trim v) then Valid
                       else Invalid (js "Please enter a valid email address")
                     else Invalid (js "Email is required")).
  { rewrite evaluateField_firstFailing.
    change (rules new_plain Email) with rules_email_plain.
    unfold rules_email_plain;
      cbn [firstFailing validate message getField getFormData email].
    cbv zeta.
    destruct (0 <? _); [|reflexivity].
    destruct (test _ _); reflexivity. }
  split; [|split].
  - rewrite !evaluateField_firstFailing. destruct field; reflexivity.
  - intros ls. rewrite !evaluateField_firstFailing.
    destruct field; reflexivity.
  - destruct field;
      try (left; rewrite !evaluateField_firstFailing; reflexivity).
    rewrite Hplain, evaluateField_email; cbv zeta.
    destruct (0 <? _); [|left; reflexivity].
    destruct (test _ _); [|left; reflexivity].
    destruct (isEmailRegistered _ _); [right; auto | left; reflexivity].
Qed.

(** [handleSubmit] of the variant without the registry never writes
    [localStorage], whether the form is accepted or not. *)
Theorem handleSubmit_plain_keeps_localStorage
    (this : FormValidator) (e : Event) (b : Browser) :
  localStorage (world (snd (handleSubmit_plain this e b)))
  = localStorage (world b).
Proof.
  unfold handleSubmit_plain.
  change (world (onSuccessClassList (classList_remove (js "show")) b))
    with (world b).
  pose proof (every_validateField_localStorage this (fields this) (world b))
    as Hl.
  fold (validateAll this (world b)) in Hl.
  destruct (validateAll this (world b)) as [ok w1]; simpl in Hl.
  destruct ok; simpl; exact Hl.
Qed.

(* ================================================================== *)
(** ** Invariants along the events *)

Section Events.

Variable this : FormValidator.

Lemma validateField_exclusive (field : FieldName) (w : World) :
  exclusiveMarks w -> exclusiveMarks (snd (validateField this field w)).
Proof.
  intros Hex g [He Hs].
  destruct (FieldName_eqb g field) eqn:E.
  - apply FieldName_eqb_eq in E; subst g.
    destruct (validateField_marks this field w) as [Herr Hsuc].
    apply Herr in He. apply Hsuc in Hs. congruence.
  - assert (Hne : g <> field).
    { intros ->. rewrite FieldName_eqb_refl in E; discriminate. }
    destruct (validateField_other this field g w Hne) as [Hi _].
    rewrite Hi in He, Hs. apply (Hex g); auto.
Qed.

Lemma every_validateField_exclusive (arr : list FieldName) :
  forall w,
    exclusiveMarks w ->
    exclusiveMarks (snd (every (fun f => validateField this f) arr w)).
Proof.
  induction arr as [|f arr IH]; intros w Hex; simpl; [exact Hex|].
  pose proof (validateField_exclusive f w Hex) as H1.
  destruct (validateField this f w) as [ok w1]; simpl in H1.
  destruct ok; simpl; [apply IH; exact H1 | exact H1].
Qed.

Lemma typeInto_exclusive (field : FieldName) (v : jsstring) (w : World) :
  exclusiveMarks w -> exclusiveMarks (typeInto field v w).
Proof.
  intros Hex g. unfold typeInto, onInput, clearError, setValue; simpl.
  destruct (FieldName_eqb g field) eqn:E; simpl; [|apply Hex].
  apply FieldName_eqb_eq in E; subst g.
  rewrite FieldName_eqb_refl; simpl.
  rewrite !In_classList_remove. intros [[He _] [Hs _]].
  apply (Hex field); auto.
Qed.

Lemma reset_exclusive (b : Browser) :
  exclusiveMarks (world b) -> exclusiveMarks (world (reset this b)).
Proof.
  intros Hex g. rewrite reset_world.
  destruct (fold_resetField (fields this)
              (form_reset (defaultValue b) (world b)) g) as (_ & _ & Hc & _).
  rewrite !Hc. simpl. intros [[He _] [Hs _]]. apply (Hex g); auto.
Qed.

Lemma handleSubmit_exclusive (e : Event) (b : Browser) :
  exclusiveMarks (world b) ->
  exclusiveMarks (world (snd (handleSubmit this e b))).
Proof.
  intros Hex.
  pose proof (every_validateField_exclusive (fields this) (world b) Hex) as H1.
  fold (validateAll this (world b)) in H1.
  destruct (fst (validateAll this (world b))) eqn:H.
  - rewrite (handleSubmit_true this e b H); cbv zeta; simpl. exact H1.
  - rewrite (handleSubmit_false this e b H); simpl. exact H1.
Qed.

Lemma dispatch_exclusive (b : Browser) (ev : UserEvent) :
  exclusiveMarks (world b) -> exclusiveMarks (world (dispatch this b ev)).
Proof.
  intros Hex. destruct ev as [field|field v| |]; simpl.
  - apply validateField_exclusive; exact Hex.
  - apply typeInto_exclusive; exact Hex.
  - apply handleSubmit_exclusive; exact Hex.
  - unfold runTimeout. destruct (timeouts b); [exact Hex|].
    apply reset_exclusive. exact Hex.
Qed.

Lemma reset_localStorage (b : Browser) :
  localStorage (world (reset this b)) = localStorage (world b).
Proof.
  rewrite reset_world.
  destruct (fold_resetField (fields this)
              (form_reset (defaultValue b) (world b)) Name) as (_ & Hl & _).
  rewrite Hl. reflexivity.
Qed.

Lemma dispatch_registry (b : Browser) (ev : UserEvent) :
  registryOk (getRegisteredEmails (localStorage (world b))) ->
  registryOk (getRegisteredEmails (localStorage (world (dispatch this b ev))))
  /\ incl (getRegisteredEmails (localStorage (world b)))
          (getRegisteredEmails (localStorage (world (dispatch this b ev)))).
Proof.
  intros Hok. destruct ev as [field|field v| |]; simpl.
  - unfold onBlur. rewrite validateField_localStorage.
    split; [exact Hok | apply incl_refl].
  - split; [exact Hok | apply incl_refl].
  - apply handleSubmit_registry. exact Hok.
  - unfold runTimeout. destruct (timeouts b);
      [split; [exact Hok | apply incl_refl]|].
    rewrite reset_localStorage. simpl.
    split; [exact Hok | apply incl_refl].
Qed.

End Events.

(** Along any sequence of blur, input, submit and timer events, no control
    ever carries [error] and [success] together, provided none did at the
    start. *)
Theorem marks_stay_exclusive
    (this : FormValidator) (evs : list UserEvent) (b : Browser) :
  exclusiveMarks (world b) -> exclusiveMarks (world (run this evs b)).
Proof.
  unfold run. revert b.
  induction evs as [|ev evs IH]; intros b Hex; simpl; [exact Hex|].
  apply IH. apply dispatch_exclusive. exact Hex.
Qed.

(** A user who leaves the name empty, fixes it, submits a form that is
    still incomplete, and then waits. *)
Lemma marks_stay_exclusive_witness :
  exclusiveMarks
    (world (run new
              [Blur Name; Input Name (js "Al"); Blur Name; SubmitForm;
               TimerFires]
              (browser (page [] [] [] [] None)))).
Proof.
  apply marks_stay_exclusive.
  intros g [H _]. destruct g; exact H.
Defined.

(** Along any sequence of blur, input, submit and timer events the registry
    stays a duplicate-free list of lower-case strings and loses no entry. *)
Theorem registry_along_events
    (this : FormValidator) (evs : list UserEvent) (b : Browser) :
  registryOk (getRegisteredEmails (localStorage (world b))) ->
  registryOk (getRegisteredEmails (localStorage (world (run this evs b))))
  /\ incl (getRegisteredEmails (localStorage (world b)))
          (getRegisteredEmails (localStorage (world (run this evs b)))).
Proof.
  unfold run. revert b.
  induction evs as [|ev evs IH]; intros b Hok; simpl.
  - split; [exact Hok | apply incl_refl].
  - destruct (dispatch_registry this b ev Hok) as [Hok1 Hincl1].
    destruct (IH (dispatch this b ev) Hok1) as [Hok2 Hincl2].
    split; [exact Hok2|].
    intros x Hx. apply Hincl2, Hincl1, Hx.
Qed.

(** Two accepted submissions of addresses that differ by letter case only,
    with a reset in between. *)
Lemma registry_along_events_witness :
  registryOk
    (getRegisteredEmails (localStorage (world
       (run new
          [SubmitForm; TimerFires;
           Input Name (js "Al"); Input Email (js "A@B.com ");
           Input Password (js "Password1!");
           Input ConfirmPassword (js "Password1!"); SubmitForm]
          (browser (page (js "Al") (js "a@b.com") (js "Password1!")
                         (js "Password1!") None))))))
  /\ incl []
       (getRegisteredEmails (localStorage (world
          (run new
             [SubmitForm; TimerFires;
              Input Name (js "Al"); Input Email (js "A@B.com ");
              Input Password (js "Password1!");
              Input ConfirmPassword (js "Password1!"); SubmitForm]
             (browser (page (js "Al") (js "a@b.com") (js "Password1!")
                            (js "Password1!") None)))))).
Proof.
  apply (registry_along_events new
           [SubmitForm; TimerFires;
            Input Name (js "Al"); Input Email (js "A@B.com ");
            Input Password (js "Password1!");
            Input ConfirmPassword (js "Password1!"); SubmitForm]
           (browser (page (js "Al") (js "a@b.com") (js "Password1!")
                          (js "Password1!") None))).
  split; constructor.
Defined.
